(** * Syncora web client: agent-trace reducer and offline cache controller

    A shallow embedding of two pieces of the web client:

    - [AgentTrace]: the state kept by [AgentTraceProvider]
      (web/context/AgentTraceContext.tsx): [handleWebSocketMessage] and the
      local methods [startNewTrace], [addAction], [updateAction],
      [completeTrace], [clearTraces];
    - [ServiceWorker]: the service worker script (install, activate and fetch
      listeners with their four request handlers).

    React state is modelled by explicit state passing: every [setX(prev => ..)]
    call of the source is a function on [State].  Promises are modelled by a
    state-and-rejection monad over the worker's observable world: an
    asynchronous function is run to its settlement, a call that is not
    awaited is run in place and its outcome dropped.

    Left out: the timers that reopen the socket, the rendering, and the
    worker's message and sync listeners. *)

From stdpp Require Import base strings list gmap option pretty.

(* ====================================================================== *)
(** * Agent trace reducer *)
(* ====================================================================== *)

Module AgentTrace.

(** What the browser provides and the reducer only passes around: the values
    of a parsed JSON message, [JSON.stringify], JavaScript truthiness of such a
    value, the [number] type (durations are copied, never computed with) and
    the rendering of a clock reading by [new Date().toISOString()]. *)
Class Platform := {
  Json : Type;
  number : Type;
  JSON_stringify : Json → string;
  js_truthy : Json → bool;
  toISOString : N → string;
}.

Section Reducer.
Context `{Platform}.

(** ** Types *)

(** [AgentAction["status"]].  The declared union has four members; [init]
    copies the status string of the wire through unchanged, so a string
    outside the union can be stored at run time ([AOther]). *)
Inductive ActionStatus :=
| APending | ARunning | ACompleted | AError | AOther (s : string).

(** [AgentTrace["status"]], with the same remark for [init]. *)
Inductive TraceStatus :=
| TRunning | TCompleted | TError | TOther (s : string).

(** The object found under [data.action] in the nested form of an
    action-start message; every field is read through [?.]. *)
Record WireActionRef := {
  wr_id : option string;
  wr_agent : option string;
  wr_action : option string;
  wr_input : option Json;
  wr_started_at : option string;
}.

(** The value of the [action] field of an action.  [data.action?.action ||
    data.action] yields the nested text, the flat text, the nested object
    itself (when it carries no text) or [undefined]. *)
Inductive ActionDesc :=
| DescText (s : string)
| DescObject (o : WireActionRef)
| DescUndefined.

Record AgentAction := {
  act_id : string;
  act_agent : option string;
  act_action : ActionDesc;
  act_input : option string;
  act_output : option string;
  act_status : ActionStatus;
  act_duration_ms : option number;
  act_timestamp : string;
  act_metadata : option Json;
}.

Record AgentTrace := {
  trace_id : option string;
  session_id : option string;
  started_at : string;
  completed_at : option string;
  trace_status : TraceStatus;
  total_duration_ms : option number;
  actions : list AgentAction;
  current_agent : option string;
  summary : option string;
}.

(** The provider's state: the six [useState] cells and the
    [actionIdCounter] ref. *)
Record State := {
  currentTrace : option AgentTrace;
  allTraces : list AgentTrace;
  recentActions : list AgentAction;
  isConnected : bool;
  isTraceVisible : bool;
  isMinimized : bool;
  actionIdCounter : nat;
}.

Definition initialState : State :=
  {| currentTrace := None; allTraces := []; recentActions := [];
     isConnected := false; isTraceVisible := false; isMinimized := false;
     actionIdCounter := 0 |}.

(** ** Messages of the push channel

    A field may be absent ([None]) where the handler reads it through [?.],
    [||] or a truthiness test, or copies it into a field that admits
    [undefined]; a field it reads plainly into a field that does not is
    taken as present, with the type the target interface declares. *)

(** An entry of [latestTrace.actions] in an [init] snapshot. *)
Record WireAction := {
  wa_id : string;
  wa_agent : option string;
  wa_action : string;
  wa_input : option Json;
  wa_output : option Json;
  wa_status : string;
  wa_duration_ms : option number;
  wa_started_at : string;
}.

Record WireContext := { wc_session_id : option string }.

(** An entry of [data.traces] in an [init] snapshot. *)
Record WireTrace := {
  wt_id : string;
  wt_context : option WireContext;
  wt_started_at : string;
  wt_status : string;
  wt_actions : option (list WireAction);
}.

(** [data.trace] of a [trace_start] message. *)
Record WireTraceRef := {
  wtr_id : option string;
  wtr_context : option WireContext;
  wtr_started_at : option string;
}.

(** [data.action] of an action-start message: an object (nested form), a
    string (flat form) or absent. *)
Inductive ActionField :=
| ActObj (o : WireActionRef)
| ActStr (s : string)
| ActAbsent.

Record ActionStartData := {
  d_action : ActionField;
  d_action_id : option string;
  d_agent : option string;
  d_input : option string;
  d_timestamp : option string;
  d_metadata : option Json;
  d_trace_id : option string;
}.

Inductive StartKind := action_start | action_started | agent_action.
Inductive CompleteKind := trace_complete | trace_completed.

(** The messages by their [type] tag. *)
Inductive Message :=
| Init (traces : option (list WireTrace))
| TraceStart (trace : option WireTraceRef)
| TraceStarted (trace_id session_id : option string) (timestamp : option string)
| ActionStart (k : StartKind) (d : ActionStartData)
| ActionUpdate (action_id : string) (status : option string)
    (output : option Json) (duration_ms : option number)
| ActionCompleted (action_id : string) (output : option string)
    (duration_ms : option number)
| ActionError (action_id : string) (error : option string)
| TraceComplete (k : CompleteKind) (timestamp : option string)
    (duration_ms : option number) (summary : option string)
| OtherType (type : string).

(** ** JavaScript helpers *)

(** Truthiness of a possibly absent string: [undefined] and [""] are falsy. *)
Definition truthy_str (o : option string) : bool :=
  match o with
  | Some s => negb (String.eqb s "")
  | None => false
  end.

(** [a || b] on possibly absent strings. *)
Definition js_or (a b : option string) : option string :=
  if truthy_str a then a else b.

(** [a || b] where [b] is always a string. *)
Definition js_or_default (a : option string) (b : string) : string :=
  match js_or a (Some b) with
  | Some s => s
  | None => b
  end.

(** [x ? JSON.stringify(x) : other] *)
Definition stringify_or (x : option Json) (other : option string)
  : option string :=
  match x with
  | Some j => if js_truthy j then Some (JSON_stringify j) else other
  | None => other
  end.

(** ** State setters ([setX(prev => f prev)]) *)

Definition setCurrentTrace (f : option AgentTrace → option AgentTrace)
  (s : State) : State :=
  {| currentTrace := f (currentTrace s); allTraces := allTraces s;
     recentActions := recentActions s; isConnected := isConnected s;
     isTraceVisible := isTraceVisible s; isMinimized := isMinimized s;
     actionIdCounter := actionIdCounter s |}.

Definition setAllTraces (f : list AgentTrace → list AgentTrace)
  (s : State) : State :=
  {| currentTrace := currentTrace s; allTraces := f (allTraces s);
     recentActions := recentActions s; isConnected := isConnected s;
     isTraceVisible := isTraceVisible s; isMinimized := isMinimized s;
     actionIdCounter := actionIdCounter s |}.

Definition setRecentActions (f : list AgentAction → list AgentAction)
  (s : State) : State :=
  {| currentTrace := currentTrace s; allTraces := allTraces s;
     recentActions := f (recentActions s); isConnected := isConnected s;
     isTraceVisible := isTraceVisible s; isMinimized := isMinimized s;
     actionIdCounter := actionIdCounter s |}.

Definition setIsConnected (b : bool) (s : State) : State :=
  {| currentTrace := currentTrace s; allTraces := allTraces s;
     recentActions := recentActions s; isConnected := b;
     isTraceVisible := isTraceVisible s; isMinimized := isMinimized s;
     actionIdCounter := actionIdCounter s |}.

Definition setTraceVisible (b : bool) (s : State) : State :=
  {| currentTrace := currentTrace s; allTraces := allTraces s;
     recentActions := recentActions s; isConnected := isConnected s;
     isTraceVisible := b; isMinimized := isMinimized s;
     actionIdCounter := actionIdCounter s |}.

Definition setMinimized (b : bool) (s : State) : State :=
  {| currentTrace := currentTrace s; allTraces := allTraces s;
     recentActions := recentActions s; isConnected := isConnected s;
     isTraceVisible := isTraceVisible s; isMinimized := b;
     actionIdCounter := actionIdCounter s |}.

Definition setActionIdCounter (n : nat) (s : State) : State :=
  {| currentTrace := currentTrace s; allTraces := allTraces s;
     recentActions := recentActions s; isConnected := isConnected s;
     isTraceVisible := isTraceVisible s; isMinimized := isMinimized s;
     actionIdCounter := n |}.

(** [generateActionId]: bump the counter, then render
    [action_${Date.now()}_${counter}]. *)
Definition generateActionId (now : N) (s : State) : string * State :=
  let c := S (actionIdCounter s) in
  ("action_" +:+ pretty now +:+ "_" +:+ pretty c, setActionIdCounter c s).

(** ** Record updates of the handlers *)

(** [{...a, status, output, duration_ms}] *)
Definition patch_action (st : ActionStatus) (out : option string)
  (dur : option number) (a : AgentAction) : AgentAction :=
  {| act_id := act_id a; act_agent := act_agent a;
     act_action := act_action a; act_input := act_input a;
     act_output := out; act_status := st; act_duration_ms := dur;
     act_timestamp := act_timestamp a; act_metadata := act_metadata a |}.

(** [{...a, status, output}] *)
Definition patch_action_error (out : option string) (a : AgentAction)
  : AgentAction :=
  {| act_id := act_id a; act_agent := act_agent a;
     act_action := act_action a; act_input := act_input a;
     act_output := out; act_status := AError;
     act_duration_ms := act_duration_ms a;
     act_timestamp := act_timestamp a; act_metadata := act_metadata a |}.

(** [{...prev, actions}] *)
Definition with_actions (acts : list AgentAction) (t : AgentTrace)
  : AgentTrace :=
  {| trace_id := trace_id t; session_id := session_id t;
     started_at := started_at t; completed_at := completed_at t;
     trace_status := trace_status t;
     total_duration_ms := total_duration_ms t; actions := acts;
     current_agent := current_agent t; summary := summary t |}.

(** [{...prev, current_agent, actions: [...prev.actions, newAction]}] *)
Definition append_action (a : AgentAction) (agent : option string)
  (t : AgentTrace) : AgentTrace :=
  {| trace_id := trace_id t; session_id := session_id t;
     started_at := started_at t; completed_at := completed_at t;
     trace_status := trace_status t;
     total_duration_ms := total_duration_ms t;
     actions := actions t ++ [a];
     current_agent := agent; summary := summary t |}.

(** [prev.actions.map(a => a.id === id ? f a : a)] *)
Definition map_matching (aid : string) (f : AgentAction → AgentAction)
  (l : list AgentAction) : list AgentAction :=
  (λ a, if String.eqb (act_id a) aid then f a else a) <$> l.

(** [setCurrentTrace(prev => !prev ? prev : {...prev, actions: map ..})] *)
Definition update_trace_actions (aid : string)
  (f : AgentAction → AgentAction) : State → State :=
  setCurrentTrace (λ prev,
    match prev with
    | None => None
    | Some t => Some (with_actions (map_matching aid f (actions t)) t)
    end).

(** The object literal of a new trace: status running, nothing else set. *)
Definition fresh_trace (tid sid : option string) (started : string)
  (acts : list AgentAction) (agent : option string) : AgentTrace :=
  {| trace_id := tid; session_id := sid; started_at := started;
     completed_at := None; trace_status := TRunning;
     total_duration_ms := None; actions := acts;
     current_agent := agent; summary := None |}.

(** ** [handleWebSocketMessage] *)

(** [a.status === "started" ? "running" : a.status] *)
Definition action_status_of_wire (w : string) : ActionStatus :=
  if String.eqb w "started" then ARunning
  else if String.eqb w "pending" then APending
  else if String.eqb w "running" then ARunning
  else if String.eqb w "completed" then ACompleted
  else if String.eqb w "error" then AError
  else AOther w.

(** [latestTrace.status === "active" ? "running" : latestTrace.status] *)
Definition trace_status_of_wire (w : string) : TraceStatus :=
  if String.eqb w "active" then TRunning
  else if String.eqb w "running" then TRunning
  else if String.eqb w "completed" then TCompleted
  else if String.eqb w "error" then TError
  else TOther w.

(** The mapping of [latestTrace.actions] in [init]. *)
Definition action_of_wire (a : WireAction) : AgentAction :=
  {| act_id := wa_id a;
     act_agent := wa_agent a;
     act_action := DescText (wa_action a);
     act_input := JSON_stringify <$> wa_input a;
     act_output := stringify_or (wa_output a) None;
     act_status := action_status_of_wire (wa_status a);
     act_duration_ms := wa_duration_ms a;
     act_timestamp := wa_started_at a;
     act_metadata := None |}.

(** [updateStatus] of the [action_update] case. *)
Definition updateStatus (status : option string) : ActionStatus :=
  match status with
  | Some w =>
      if String.eqb w "completed" then ACompleted
      else if String.eqb w "error" then AError
      else ARunning
  | None => ARunning
  end.

(** [data.action?.f]: a property of the nested object, [undefined] when
    [data.action] is a string or absent. *)
Definition nested {A} (f : WireActionRef → option A) (x : ActionField)
  : option A :=
  match x with
  | ActObj o => f o
  | _ => None
  end.

(** [data.action?.action || data.action] *)
Definition action_desc (x : ActionField) : ActionDesc :=
  match x with
  | ActObj o =>
      if truthy_str (wr_action o) then
        match wr_action o with Some t => DescText t | None => DescObject o end
      else DescObject o
  | ActStr t => DescText t
  | ActAbsent => DescUndefined
  end.

(** [x.context?.session_id] *)
Definition context_session (c : option WireContext) : option string :=
  match c with
  | Some c => wc_session_id c
  | None => None
  end.

(** [data.trace?.f] *)
Definition traceRef {A} (f : WireTraceRef → option A)
  (trace : option WireTraceRef) : option A :=
  match trace with
  | Some t => f t
  | None => None
  end.

(** [newAction] of the action-start case; the id is generated only when
    neither [data.action?.id] nor [data.action_id] is truthy. *)
Definition newAction_of (now : N) (d : ActionStartData) (s : State)
  : AgentAction * State :=
  let '(aid, s1) :=
    match js_or (nested wr_id (d_action d)) (d_action_id d) with
    | Some i => if truthy_str (Some i) then (i, s) else generateActionId now s
    | None => generateActionId now s
    end in
  ({| act_id := aid;
      act_agent := js_or (nested wr_agent (d_action d)) (d_agent d);
      act_action := action_desc (d_action d);
      act_input := stringify_or (nested wr_input (d_action d)) (d_input d);
      act_output := None;
      act_status := ARunning;
      act_duration_ms := None;
      act_timestamp :=
        js_or_default
          (js_or (nested wr_started_at (d_action d)) (d_timestamp d))
          (toISOString now);
      act_metadata := d_metadata d |}, s1).

(** The three state updates shared by the action-start case and
    [addAction]: append to the current trace (creating one when there is
    none), push on [recentActions], show the panel. *)
Definition push_action (tid : string) (started : string)
  (a : AgentAction) (agent : option string) (s : State) : State :=
  setTraceVisible true
    (setRecentActions (λ prev, take 50 (a :: prev))
      (setCurrentTrace (λ prev,
         match prev with
         | None => Some (fresh_trace (Some tid) (Some "auto") started [a] agent)
         | Some t => Some (append_action a agent t)
         end) s)).

(** [{...prev, status: "completed", completed_at, total_duration_ms, summary,
    current_agent: undefined}] *)
Definition completed_trace (at_ : string) (dur : option number)
  (sum : option string) (t : AgentTrace) : AgentTrace :=
  {| trace_id := trace_id t; session_id := session_id t;
     started_at := started_at t; completed_at := Some at_;
     trace_status := TCompleted; total_duration_ms := dur;
     actions := actions t; current_agent := None; summary := sum |}.

(** The updater of the trace-complete case and of [completeTrace]: nothing
    without a current trace; otherwise the completed copy becomes the current
    trace and is put at the front of [allTraces], cut to 20. *)
Definition archive (mk : AgentTrace → AgentTrace) (s : State) : State :=
  match currentTrace s with
  | None => s
  | Some prev =>
      let completed := mk prev in
      setCurrentTrace (λ _, Some completed)
        (setAllTraces (λ traces, take 20 (completed :: traces)) s)
  end.

Definition handleWebSocketMessage (now : N) (data : Message) (s : State)
  : State :=
  match data with
  | Init traces =>
      match traces with
      | Some (latestTrace :: _) =>
          setTraceVisible true
            (setCurrentTrace (λ _, Some
               {| trace_id := Some (wt_id latestTrace);
                  session_id :=
                    Some (js_or_default
                            (context_session (wt_context latestTrace))
                            "unknown");
                  started_at := wt_started_at latestTrace;
                  completed_at := None;
                  trace_status := trace_status_of_wire (wt_status latestTrace);
                  total_duration_ms := None;
                  actions :=
                    match wt_actions latestTrace with
                    | Some l => action_of_wire <$> l
                    | None => []
                    end;
                  current_agent := None;
                  summary := None |}) s)
      | _ => s
      end
  | TraceStart trace =>
      setTraceVisible true
        (setCurrentTrace (λ _, Some
           (fresh_trace (traceRef wtr_id trace)
              (Some (js_or_default
                 (context_session (traceRef wtr_context trace)) "unknown"))
              (js_or_default (traceRef wtr_started_at trace)
                 (toISOString now))
              [] None)) s)
  | TraceStarted tid sid timestamp =>
      setTraceVisible true
        (setCurrentTrace (λ _, Some
           (fresh_trace tid sid
              (js_or_default timestamp (toISOString now)) [] None)) s)
  | ActionStart _ d =>
      let '(newAction, s1) := newAction_of now d s in
      push_action
        (js_or_default (d_trace_id d) ("trace_" +:+ pretty now))
        (toISOString now) newAction (act_agent newAction) s1
  | ActionUpdate action_id status output duration_ms =>
      let patch := λ a,
        patch_action (updateStatus status)
          (stringify_or output (act_output a)) duration_ms a in
      setRecentActions (map_matching action_id patch)
        (update_trace_actions action_id patch s)
  | ActionCompleted action_id output duration_ms =>
      let patch := patch_action ACompleted output duration_ms in
      setRecentActions (map_matching action_id patch)
        (update_trace_actions action_id patch s)
  | ActionError action_id error =>
      update_trace_actions action_id (patch_action_error error) s
  | TraceComplete _ timestamp duration_ms sum =>
      archive
        (completed_trace (js_or_default timestamp (toISOString now))
           duration_ms sum) s
  | OtherType _ => s
  end.

(** ** Local methods *)

(** The argument of [addAction]: [Omit<AgentAction, "id" | "timestamp">]. *)
Record NewAction := {
  na_agent : string;
  na_action : string;
  na_input : option string;
  na_output : option string;
  na_status : ActionStatus;
  na_duration_ms : option number;
  na_metadata : option Json;
}.

(** The argument of [updateAction]: [Partial<AgentAction>].  [None] is an
    absent key; for an optional field, [Some None] is a key set to
    [undefined]. *)
Record ActionPatch := {
  p_id : option string;
  p_agent : option string;
  p_action : option string;
  p_input : option (option string);
  p_output : option (option string);
  p_status : option ActionStatus;
  p_duration_ms : option (option number);
  p_timestamp : option string;
  p_metadata : option (option Json);
}.

(** [{...a, ...updates}] *)
Definition apply_patch (u : ActionPatch) (a : AgentAction) : AgentAction :=
  {| act_id := default (act_id a) (p_id u);
     act_agent := match p_agent u with Some g => Some g | None => act_agent a end;
     act_action :=
       match p_action u with Some t => DescText t | None => act_action a end;
     act_input := default (act_input a) (p_input u);
     act_output := default (act_output a) (p_output u);
     act_status := default (act_status a) (p_status u);
     act_duration_ms := default (act_duration_ms a) (p_duration_ms u);
     act_timestamp := default (act_timestamp a) (p_timestamp u);
     act_metadata := default (act_metadata a) (p_metadata u) |}.

Definition startNewTrace (now : N) (sessionId : string) (s : State) : State :=
  setTraceVisible true
    (setCurrentTrace (λ _, Some
       (fresh_trace (Some ("trace_" +:+ pretty now)) (Some sessionId)
          (toISOString now) [] None)) s).

(** [newAction] of [addAction]: [{...action, id: generateActionId(),
    timestamp}]. *)
Definition newAction_local (now : N) (action : NewAction) (s : State)
  : AgentAction * State :=
  let '(aid, s1) := generateActionId now s in
  ({| act_id := aid;
      act_agent := Some (na_agent action);
      act_action := DescText (na_action action);
      act_input := na_input action;
      act_output := na_output action;
      act_status := na_status action;
      act_duration_ms := na_duration_ms action;
      act_timestamp := toISOString now;
      act_metadata := na_metadata action |}, s1).

(** [addAction] returns the id of the new action. *)
Definition addAction (now : N) (action : NewAction) (s : State)
  : string * State :=
  let '(newAction, s1) := newAction_local now action s in
  (act_id newAction,
   push_action ("trace_" +:+ pretty now) (toISOString now) newAction
     (Some (na_agent action)) s1).

Definition updateAction (actionId : string) (updates : ActionPatch)
  (s : State) : State :=
  setRecentActions (map_matching actionId (apply_patch updates))
    (update_trace_actions actionId (apply_patch updates) s).

(** [{...prev, status: "completed", completed_at, summary,
    current_agent: undefined}] *)
Definition locally_completed (at_ : string) (sum : option string)
  (t : AgentTrace) : AgentTrace :=
  {| trace_id := trace_id t; session_id := session_id t;
     started_at := started_at t; completed_at := Some at_;
     trace_status := TCompleted;
     total_duration_ms := total_duration_ms t;
     actions := actions t; current_agent := None; summary := sum |}.

Definition completeTrace (now : N) (sum : option string) (s : State)
  : State :=
  archive (locally_completed (toISOString now) sum) s.

Definition clearTraces (s : State) : State :=
  setRecentActions (λ _, []) (setAllTraces (λ _, []) s).

(** ** Runs

    Everything that can change the state: a message of the push channel, the
    socket opening or closing, a call of a method of the context value.  An
    input is processed with the clock reading [Date.now()] of that moment. *)
Inductive Input :=
| WsMessage (data : Message)
| WsOpen
| WsClose
| CallStartNewTrace (sessionId : string)
| CallAddAction (action : NewAction)
| CallUpdateAction (actionId : string) (updates : ActionPatch)
| CallCompleteTrace (sum : option string)
| CallClearTraces
| CallSetTraceVisible (visible : bool)
| CallSetMinimized (minimized : bool).

Definition step (s : State) (i : N * Input) : State :=
  let now := i.1 in
  match i.2 with
  | WsMessage data => handleWebSocketMessage now data s
  | WsOpen => setIsConnected true s
  | WsClose => setIsConnected false s
  | CallStartNewTrace sessionId => startNewTrace now sessionId s
  | CallAddAction action => (addAction now action s).2
  | CallUpdateAction actionId updates => updateAction actionId updates s
  | CallCompleteTrace sum => completeTrace now sum s
  | CallClearTraces => clearTraces s
  | CallSetTraceVisible visible => setTraceVisible visible s
  | CallSetMinimized minimized => setMinimized minimized s
  end.

(** The state after a sequence of inputs, oldest first. *)
Definition run (inputs : list (N * Input)) (s : State) : State :=
  foldl step s inputs.

(** The action an input starts: [newAction] of an action-start message or
    of an [addAction] call; [None] for every other input. *)
Definition started_action (now : N) (i : Input) (s : State)
  : option AgentAction :=
  match i with
  | WsMessage (ActionStart _ d) => Some (newAction_of now d s).1
  | CallAddAction action => Some (newAction_local now action s).1
  | _ => None
  end.

(** Every entry with the id [aid] in the current trace is related by [P] to
    every entry with that id in [recentActions]. *)
Definition copies_related (aid : string)
  (P : AgentAction → AgentAction → Prop) (s : State) : Prop :=
  ∀ t a b,
    currentTrace s = Some t → a ∈ actions t → b ∈ recentActions s →
    act_id a = aid → act_id b = aid → P a b.

(** The two copies agree: same status, output and duration. *)
Definition same_record (a b : AgentAction) : Prop :=
  act_status a = act_status b ∧ act_output a = act_output b ∧
  act_duration_ms a = act_duration_ms b.

(** What an update for the id [aid] makes of the entry [a]: an entry with
    another id is left as it is; an entry with that id gets the status [st]
    and the duration [dur], its output is related by [R] to the one it had,
    and every other field is kept. *)
Definition entry_updated (aid : string) (st : ActionStatus)
  (R : option string → option string → Prop) (dur : option number)
  (a a' : AgentAction) : Prop :=
  (act_id a ≠ aid → a' = a) ∧
  (act_id a = aid →
   act_id a' = act_id a ∧ act_agent a' = act_agent a ∧
   act_action a' = act_action a ∧ act_input a' = act_input a ∧
   act_timestamp a' = act_timestamp a ∧ act_metadata a' = act_metadata a ∧
   act_status a' = st ∧ R (act_output a) (act_output a') ∧
   act_duration_ms a' = dur).

(** The output of an entry after [action_update]: the text of the output of
    the message when the message has a truthy one; the output the entry had
    when the message has none, or a falsy one. *)
Definition update_output (out : option Json) (old new : option string)
  : Prop :=
  (∀ j, out = Some j → js_truthy j = true → new = Some (JSON_stringify j)) ∧
  ((∀ j, out = Some j → js_truthy j = false) → new = old).

(** The output of an entry after [action_completed]: the output of the
    message, present or not. *)
Definition completed_output (out : option string) (old new : option string)
  : Prop :=
  new = out.

(** The current trace after an update: none when there was none; else the
    trace of before with its entries updated one by one, in order, whether
    or not [recentActions] has an entry with the id. *)
Definition trace_updated (aid : string) (st : ActionStatus)
  (R : option string → option string → Prop) (dur : option number)
  (p p' : option AgentTrace) : Prop :=
  match p, p' with
  | None, None => True
  | Some t, Some t' =>
      t' = with_actions (actions t') t ∧
      Forall2 (entry_updated aid st R dur) (actions t) (actions t')
  | _, _ => False
  end.

End Reducer.

(** A platform to run the reducer on: JSON values and numbers are integers,
    printed in decimal; zero is the falsy one; a clock reading is rendered
    by its digits. *)
Definition integer_platform : Platform :=
  {| Json := Z; number := Z; JSON_stringify := pretty;
     js_truthy := λ z, negb (Z.eqb z 0); toISOString := pretty |}.

(** Sample messages for that platform. *)
Module Sample.

(** An [agent_action] message in the flat form, with a given id. *)
Definition start_data (aid : string)
  : ActionStartData (H := integer_platform) :=
  {| d_action := ActStr "Analyzing request";
     d_action_id := Some aid;
     d_agent := Some "manager";
     d_input := Some "query";
     d_timestamp := None;
     d_metadata := None;
     d_trace_id := None |}.

Definition start (aid : string) : Message (H := integer_platform) :=
  ActionStart agent_action (start_data aid).

Definition trace_started : Message (H := integer_platform) :=
  TraceStarted (Some "t1") (Some "s1") None.

Definition complete : Message (H := integer_platform) :=
  TraceComplete trace_complete None
    (Some (40%Z : @number integer_platform)) (Some "done").

(** An [init] snapshot whose latest trace holds the action with the given
    id, completed, with the output [7]. *)
Definition snapshot (aid : string) : Message (H := integer_platform) :=
  Init (Some
    [ {| wt_id := "t1";
         wt_context := None;
         wt_started_at := "2024-01-01T00:00:00.000Z";
         wt_status := "active";
         wt_actions := Some
           [ {| wa_id := aid;
                wa_agent := Some "manager";
                wa_action := "Analyzing request";
                wa_input := None;
                wa_output := Some (7%Z : @Json integer_platform);
                wa_status := "completed";
                wa_duration_ms := Some (12%Z : @number integer_platform);
                wa_started_at := "2024-01-01T00:00:01.000Z" |} ] |} ]).

(** Fifty action-start messages with the ids 1 to 50, at the clock
    readings 1 to 50. *)
Definition fifty_starts : list (N * Input (H := integer_platform)) :=
  (λ n, (N.of_nat n, WsMessage (start (pretty n)))) <$> seq 1 50.

(** The state after a trace was started and completed. *)
Definition completed_state : State (H := integer_platform) :=
  run [(1%N, WsMessage trace_started);
       (2%N, WsMessage complete)] initialState.

(** The state in which the action [a1] was started, and then an [init]
    snapshot (as sent on a reconnection) brought the trace with that action
    completed and its output. *)
Definition resynchronised_state : State (H := integer_platform) :=
  run [(1%N, WsMessage (start "a1"));
       (2%N, WsMessage (snapshot "a1"))] initialState.

End Sample.

End AgentTrace.

(* ====================================================================== *)
(** * Offline cache controller (service worker) *)
(* ====================================================================== *)

Module ServiceWorker.

(** The double-quote character. *)
Definition dq : string := String (Ascii.ascii_of_nat 34) EmptyString.

(** ** Constants of the script *)

Definition CACHE_NAME : string := "syncora-v1".
Definition OFFLINE_URL : string := "/offline.html".

Definition CORE_ASSETS : list string :=
  [ "/";
    "/offline.html";
    "/manifest.json";
    "/icons/icon-192x192.png";
    "/icons/icon-512x512.png" ].

Definition CACHEABLE_API_PATTERNS : list string :=
  [ "/api/v1/curriculum";
    "/api/v1/offline/packs";
    "/api/v1/offline/prebuilt" ].

Definition DYNAMIC_CACHE : string := "syncora-dynamic-v1".
Definition OFFLINE_PACKS_CACHE : string := "syncora-offline-packs-v1".

(** ** The platform: requests, responses, cache storage, promises *)

(** A response: status, headers, body.  [clone()] is the identity. *)
Record Response := {
  status : nat;
  headers : list (string * string);
  body : string;
}.

(** [response.ok]: the status is in the range 200-299. *)
Definition ok (r : Response) : bool :=
  Nat.leb 200 (status r) && Nat.leb (status r) 299.

(** A request as the listeners read it: [url] is the key under which the
    cache storage files it, [pathname] is [new URL(request.url).pathname]. *)
Record Request := {
  url : string;
  pathname : string;
  method : string;
  mode : string;
  destination : string;
}.

(** The reason of a rejected promise. *)
Inductive Error := TypeError (message : string).

Inductive Settled (A : Type) :=
| Fulfilled (a : A)
| Rejected (e : Error).
Arguments Fulfilled {A} a.
Arguments Rejected {A} e.

(** The network at the time of a call: what [fetch] of a URL settles to. *)
Definition Network := string → Settled Response.

Inductive LogEntry :=
| Log (text : string)
| LogWith (text : string) (arg : string)
| LogError (text : string) (e : Error).

(** A message posted to a page. *)
Inductive ClientMessage :=
| OFFLINE_PACK_DOWNLOADED (url : string).

(** What the worker can observe and change.  [caches] lists the cache
    stores in creation order, each a map from request key to response;
    [fetches] records the URL of every [fetch] call and [puts] the store and
    key of every [cache.put] call, oldest first. *)
Record World := {
  caches : list (string * gmap string Response);
  fetches : list string;
  puts : list (string * string);
  console : list LogEntry;
  clients : list string;
  posted : list (string * ClientMessage);
  skipWaitingCalled : bool;
  claimed : bool;
}.

Definition with_caches (f : list (string * gmap string Response) →
                            list (string * gmap string Response))
  (w : World) : World :=
  {| caches := f (caches w); fetches := fetches w; puts := puts w;
     console := console w;
     clients := clients w; posted := posted w;
     skipWaitingCalled := skipWaitingCalled w; claimed := claimed w |}.

Definition with_puts (f : list (string * string) → list (string * string))
  (w : World) : World :=
  {| caches := caches w; fetches := fetches w; puts := f (puts w);
     console := console w;
     clients := clients w; posted := posted w;
     skipWaitingCalled := skipWaitingCalled w; claimed := claimed w |}.

Definition with_fetches (f : list string → list string) (w : World) : World :=
  {| caches := caches w; fetches := f (fetches w); puts := puts w;
     console := console w;
     clients := clients w; posted := posted w;
     skipWaitingCalled := skipWaitingCalled w; claimed := claimed w |}.

Definition with_console (f : list LogEntry → list LogEntry) (w : World)
  : World :=
  {| caches := caches w; fetches := fetches w; puts := puts w;
     console := f (console w);
     clients := clients w; posted := posted w;
     skipWaitingCalled := skipWaitingCalled w; claimed := claimed w |}.

Definition with_posted
  (f : list (string * ClientMessage) → list (string * ClientMessage))
  (w : World) : World :=
  {| caches := caches w; fetches := fetches w; puts := puts w;
     console := console w;
     clients := clients w; posted := f (posted w);
     skipWaitingCalled := skipWaitingCalled w; claimed := claimed w |}.

Definition with_skipWaiting (w : World) : World :=
  {| caches := caches w; fetches := fetches w; puts := puts w;
     console := console w;
     clients := clients w; posted := posted w;
     skipWaitingCalled := true; claimed := claimed w |}.

Definition with_claimed (w : World) : World :=
  {| caches := caches w; fetches := fetches w; puts := puts w;
     console := console w;
     clients := clients w; posted := posted w;
     skipWaitingCalled := skipWaitingCalled w; claimed := true |}.

(** *** Promises

    An asynchronous computation is run to its settlement: it takes the
    world, changes it and is fulfilled with a value or rejected. *)
Definition Task (A : Type) : Type := World → Settled A * World.

Definition ret {A} (a : A) : Task A := λ w, (Fulfilled a, w).

Definition throw {A} (e : Error) : Task A := λ w, (Rejected e, w).

(** [await m] followed by [k], or [m.then(k)]: a rejection skips [k]. *)
Definition bind {A B} (m : Task A) (k : A → Task B) : Task B :=
  λ w, match m w with
       | (Fulfilled a, w') => k a w'
       | (Rejected e, w') => (Rejected e, w')
       end.

(** [try { m } catch (error) { h error }], or [m.catch(h)]. *)
Definition catch {A} (m : Task A) (h : Error → Task A) : Task A :=
  λ w, match m w with
       | (Fulfilled a, w') => (Fulfilled a, w')
       | (Rejected e, w') => h e w'
       end.

(** A call whose promise is dropped (not awaited): it runs, and neither its
    value nor its rejection reaches the caller. *)
Definition detached {A} (m : Task A) : Task unit :=
  λ w, (Fulfilled (), (m w).2).

Notation "'let!' x ':=' m 'in' k" := (bind m (λ x, k))
  (at level 10, x binder, m at level 100, k at level 200).
Notation "m ';;;' k" := (bind m (λ _, k))
  (at level 100, k at level 200, right associativity).

(** [for (const x of l) await f x], also the calls made by [l.map(f)] under
    [Promise.all]. *)
Fixpoint for_each {A} (f : A → Task unit) (l : list A) : Task unit :=
  match l with
  | [] => ret ()
  | x :: l' => f x ;;; for_each f l'
  end.

(** *** Console, clients, lifecycle calls *)

Definition console_log (text : string) : Task unit :=
  λ w, (Fulfilled (), with_console (λ c, c ++ [Log text]) w).

Definition console_log2 (text arg : string) : Task unit :=
  λ w, (Fulfilled (), with_console (λ c, c ++ [LogWith text arg]) w).

Definition console_error (text : string) (e : Error) : Task unit :=
  λ w, (Fulfilled (), with_console (λ c, c ++ [LogError text e]) w).

Definition skipWaiting : Task unit :=
  λ w, (Fulfilled (), with_skipWaiting w).

Definition clients_claim : Task unit :=
  λ w, (Fulfilled (), with_claimed w).

Definition clients_matchAll : Task (list string) :=
  λ w, (Fulfilled (clients w), w).

Definition postMessage (client : string) (m : ClientMessage) : Task unit :=
  λ w, (Fulfilled (), with_posted (λ p, p ++ [(client, m)]) w).

(** *** [fetch] *)

Definition fetch (net : Network) (u : string) : Task Response :=
  λ w, (net u, with_fetches (λ l, l ++ [u]) w).

(** *** Cache storage *)

(** [caches.keys()] *)
Definition caches_keys : Task (list string) :=
  λ w, (Fulfilled ((caches w).*1), w).

(** [caches.open(name)]: the store is created, last, when there is none of
    that name; the handle is the name. *)
Definition open_store (name : string)
  (cs : list (string * gmap string Response))
  : list (string * gmap string Response) :=
  if bool_decide (name ∈ cs.*1) then cs else cs ++ [(name, ∅)].

Definition caches_open (name : string) : Task string :=
  λ w, (Fulfilled name, with_caches (open_store name) w).

(** [cache.put(key, response)] on the store [name]. *)
Definition put_store (name key : string) (r : Response)
  (cs : list (string * gmap string Response))
  : list (string * gmap string Response) :=
  (λ p, if bool_decide (p.1 = name) then (p.1, <[key := r]> (p.2)) else p)
    <$> cs.

(** *** What the cache refuses

    [cache.put] and [cache.addAll] reject, and store nothing, when the URL
    of the request is not an http(s) one, when the response has status 206,
    or when its [Vary] header has the member [*]. *)

(** The URL is one the cache takes.  A key that starts with [/] is relative
    to the origin of the worker, which is an http(s) one; any other key is
    an absolute URL, with its scheme in lower case as [request.url] has
    it. *)
Definition cacheable_url (u : string) : bool :=
  String.prefix "/" u || String.prefix "http://" u ||
  String.prefix "https://" u.

(** A header name in lower case, as the [Headers] of a response keep it. *)
Definition lower_ascii (c : Ascii.ascii) : Ascii.ascii :=
  let n := Ascii.nat_of_ascii c in
  if Nat.leb 65 n && Nat.leb n 90 then Ascii.ascii_of_nat (n + 32) else c.

Fixpoint lower (s : string) : string :=
  match s with
  | EmptyString => EmptyString
  | String c rest => String (lower_ascii c) (lower rest)
  end.

(** The members of a comma-separated header value (the comma has code
    44). *)
Fixpoint members (s : string) : list string :=
  match s with
  | EmptyString => [EmptyString]
  | String c rest =>
      if Nat.eqb (Ascii.nat_of_ascii c) 44 then EmptyString :: members rest
      else match members rest with
           | m :: ms => String c m :: ms
           | [] => [String c EmptyString]
           end
  end.

(** Space (code 32) or tab (code 9). *)
Definition is_blank (c : Ascii.ascii) : bool :=
  Nat.eqb (Ascii.nat_of_ascii c) 32 || Nat.eqb (Ascii.nat_of_ascii c) 9.

Fixpoint all_blank (s : string) : bool :=
  match s with
  | EmptyString => true
  | String c rest => is_blank c && all_blank rest
  end.

(** The member is [*] (code 42), blanks around it apart. *)
Fixpoint is_star (m : string) : bool :=
  match m with
  | EmptyString => false
  | String c rest =>
      if is_blank c then is_star rest
      else Nat.eqb (Ascii.nat_of_ascii c) 42 && all_blank rest
  end.

(** The response has a [Vary] header with the member [*]. *)
Definition vary_star (r : Response) : bool :=
  existsb (λ h, String.eqb (lower h.1) "vary" && existsb is_star (members h.2))
    (headers r).

(** The cache takes the response under the key. *)
Definition storable (key : string) (r : Response) : bool :=
  cacheable_url key && negb (Nat.eqb (status r) 206) && negb (vary_star r).

(** [cache.put(key, response)] as the script calls it (always for a GET
    request): the entry is written when the cache takes the response; else
    the promise is rejected and nothing is written.  The call is recorded in
    [puts] either way. *)
Definition cache_put (name key : string) (r : Response) : Task unit :=
  λ w, if storable key r then
         (Fulfilled (),
          with_puts (λ l, l ++ [(name, key)])
            (with_caches (put_store name key r) w))
       else
         (Rejected (TypeError "Failed to execute 'put' on 'Cache'"),
          with_puts (λ l, l ++ [(name, key)]) w).

(** The store of a given name, and an entry of it. *)
Fixpoint get_store (name : string)
  (cs : list (string * gmap string Response))
  : option (gmap string Response) :=
  match cs with
  | [] => None
  | (n, c) :: cs' => if bool_decide (n = name) then Some c else get_store name cs'
  end.

Definition store_entry (name key : string)
  (cs : list (string * gmap string Response)) : option Response :=
  match get_store name cs with
  | Some c => c !! key
  | None => None
  end.

(** [caches.match(key)]: the entry of the first store, in creation order,
    that has one. *)
Fixpoint match_stores (key : string)
  (cs : list (string * gmap string Response)) : option Response :=
  match cs with
  | [] => None
  | (_, c) :: cs' =>
      match c !! key with
      | Some r => Some r
      | None => match_stores key cs'
      end
  end.

Definition caches_match (key : string) : Task (option Response) :=
  λ w, (Fulfilled (match_stores key (caches w)), w).

(** [caches.delete(name)] *)
Definition delete_store (name : string)
  (cs : list (string * gmap string Response))
  : list (string * gmap string Response) :=
  filter (λ p, p.1 ≠ name) cs.

Definition caches_delete (name : string) : Task bool :=
  λ w, (Fulfilled (bool_decide (name ∈ (caches w).*1)),
        with_caches (delete_store name) w).

(** [cache.addAll(urls)]: every URL is fetched; when every fetch is
    fulfilled with an ok response that the cache takes, all of them are
    stored; otherwise nothing is stored and the promise is rejected (with
    the reason of the first failure in the order of the list). *)
Fixpoint fetch_all (net : Network) (urls : list string)
  : Task (list (string * Response)) :=
  match urls with
  | [] => ret []
  | u :: urls' =>
      λ w, match fetch net u w with
           | (r, w') =>
               match fetch_all net urls' w' with
               | (rs, w'') =>
                   (match r with
                    | Rejected e => Rejected e
                    | Fulfilled x =>
                        if ok x && storable u x then
                          match rs with
                          | Fulfilled xs => Fulfilled ((u, x) :: xs)
                          | Rejected e => Rejected e
                          end
                        else Rejected (TypeError "Request failed")
                    end, w'')
               end
           end
  end.

Definition cache_addAll (net : Network) (name : string) (urls : list string)
  : Task unit :=
  let! entries := fetch_all net urls in
  for_each (λ p, cache_put name p.1 p.2) entries.

(** ** Helpers of the script *)

(** [haystack.startsWith(needle)] *)
Definition startsWith (haystack needle : string) : bool :=
  String.prefix needle haystack.

(** [haystack.includes(needle)] *)
Fixpoint includes (haystack needle : string) : bool :=
  String.prefix needle haystack ||
  match haystack with
  | EmptyString => false
  | String _ rest => includes rest needle
  end.

Definition isCacheableApi (pathname : string) : bool :=
  existsb (λ pattern, startsWith pathname pattern) CACHEABLE_API_PATTERNS.

(** The offline HTML fallback. *)
Definition getOfflineHTML : string :=
  "
<!DOCTYPE html>
<html lang=" +:+ dq +:+
  "en" +:+ dq +:+
  " dir=" +:+ dq +:+
  "ltr" +:+ dq +:+
  ">
<head>
  <meta charset=" +:+ dq +:+
  "UTF-8" +:+ dq +:+
  ">
  <meta name=" +:+ dq +:+
  "viewport" +:+ dq +:+
  " content=" +:+ dq +:+
  "width=device-width, initial-scale=1.0" +:+ dq +:+
  ">
  <title>Syncora - Offline</title>
  <style>
    * {
      margin: 0;
      padding: 0;
      box-sizing: border-box;
    }
    
    body {
      font-family: -apple-system, BlinkMacSystemFont, 'Segoe UI', Roboto, sans-serif;
      background: linear-gradient(135deg, #059669 0%, #047857 100%);
      min-height: 100vh;
      display: flex;
      align-items: center;
      justify-content: center;
      padding: 20px;
    }
    
    .container {
      background: white;
      border-radius: 20px;
      padding: 40px;
      max-width: 500px;
      text-align: center;
      box-shadow: 0 25px 50px -12px rgba(0, 0, 0, 0.25);
    }
    
    .icon {
      font-size: 80px;
      margin-bottom: 20px;
    }
    
    h1 {
      color: #1f2937;
      font-size: 28px;
      margin-bottom: 10px;
    }
    
    .urdu {
      font-family: 'Noto Nastaliq Urdu', serif;
      direction: rtl;
      color: #374151;
      font-size: 22px;
      margin-bottom: 20px;
    }
    
    p {
      color: #6b7280;
      line-height: 1.6;
      margin-bottom: 30px;
    }
    
    .features {
      background: #f3f4f6;
      border-radius: 12px;
      padding: 20px;
      margin-bottom: 30px;
      text-align: left;
    }
    
    .features h3 {
      color: #059669;
      margin-bottom: 15px;
      font-size: 16px;
    }
    
    .feature-item {
      display: flex;
      align-items: center;
      margin-bottom: 10px;
      color: #374151;
      font-size: 14px;
    }
    
    .feature-item span {
      margin-right: 10px;
    }
    
    .btn {
      display: inline-block;
      background: #059669;
      color: white;
      padding: 14px 28px;
      border-radius: 10px;
      text-decoration: none;
      font-weight: 600;
      transition: all 0.3s;
    }
    
    .btn:hover {
      background: #047857;
      transform: translateY(-2px);
    }
    
    .status {
      margin-top: 20px;
      padding: 10px;
      border-radius: 8px;
      font-size: 14px;
    }
    
    .status.offline {
      background: #fef3c7;
      color: #92400e;
    }
    
    .status.online {
      background: #d1fae5;
      color: #065f46;
    }
  </style>
</head>
<body>
  <div class=" +:+ dq +:+
  "container" +:+ dq +:+
  ">
    <div class=" +:+ dq +:+
  "icon" +:+ dq +:+
  ">📚</div>
    <h1>You're Offline</h1>
    <p class=" +:+ dq +:+
  "urdu" +:+ dq +:+
  ">آپ آف لائن ہیں</p>
    <p>Don't worry! Your learning doesn't have to stop. Syncora has offline capabilities to keep you learning.</p>
    
    <div class=" +:+ dq +:+
  "features" +:+ dq +:+
  ">
      <h3>📥 Available Offline Features:</h3>
      <div class=" +:+ dq +:+
  "feature-item" +:+ dq +:+
  ">
        <span>✅</span> View cached lessons
      </div>
      <div class=" +:+ dq +:+
  "feature-item" +:+ dq +:+
  ">
        <span>✅</span> Access downloaded content packs
      </div>
      <div class=" +:+ dq +:+
  "feature-item" +:+ dq +:+
  ">
        <span>✅</span> Review your study notes
      </div>
      <div class=" +:+ dq +:+
  "feature-item" +:+ dq +:+
  ">
        <span>✅</span> Practice with saved problems
      </div>
    </div>
    
    <button class=" +:+ dq +:+
  "btn" +:+ dq +:+
  " onclick=" +:+ dq +:+
  "window.location.reload()" +:+ dq +:+
  ">
      🔄 Try Again
    </button>
    
    <div id=" +:+ dq +:+
  "status" +:+ dq +:+
  " class=" +:+ dq +:+
  "status offline" +:+ dq +:+
  ">
      🔴 Currently Offline
    </div>
  </div>
  
  <script>
    // Check online status
    function updateStatus() {
      const statusEl = document.getElementById('status');
      if (navigator.onLine) {
        statusEl.className = 'status online';
        statusEl.textContent = '🟢 Back Online - Refreshing...';
        setTimeout(() => window.location.reload(), 1000);
      } else {
        statusEl.className = 'status offline';
        statusEl.textContent = '🔴 Currently Offline';
      }
    }
    
    window.addEventListener('online', updateStatus);
    window.addEventListener('offline', updateStatus);
    updateStatus();
  </script>
</body>
</html>
  ".

(** The body of the offline answer to an API request:
    [JSON.stringify({error, message, message_ur})]. *)
Definition offlineJSON : string :=
  "{" +:+ dq +:+
  "error" +:+ dq +:+
  ":" +:+ dq +:+
  "offline" +:+ dq +:+
  "," +:+ dq +:+
  "message" +:+ dq +:+
  ":" +:+ dq +:+
  "You are currently offline. Please check your connection." +:+ dq +:+
  "," +:+ dq +:+
  "message_ur" +:+ dq +:+
  ":" +:+ dq +:+
  "آپ فی الحال آف لائن ہیں۔ براہ کرم اپنا کنکشن چیک کریں۔" +:+ dq +:+
  "}".

(** The placeholder returned for an image that cannot be fetched. *)
Definition offlineSVG : string :=
  "<svg xmlns=" +:+ dq +:+
  "http://www.w3.org/2000/svg" +:+ dq +:+
  " width=" +:+ dq +:+
  "100" +:+ dq +:+
  " height=" +:+ dq +:+
  "100" +:+ dq +:+
  "><rect fill=" +:+ dq +:+
  "#ddd" +:+ dq +:+
  " width=" +:+ dq +:+
  "100" +:+ dq +:+
  " height=" +:+ dq +:+
  "100" +:+ dq +:+
  "/><text x=" +:+ dq +:+
  "50" +:+ dq +:+
  " y=" +:+ dq +:+
  "50" +:+ dq +:+
  " text-anchor=" +:+ dq +:+
  "middle" +:+ dq +:+
  " fill=" +:+ dq +:+
  "#888" +:+ dq +:+
  ">Offline</text></svg>".

(** [new Response(body, {status, headers})] *)
Definition newResponse (b : string) (st : nat) (h : list (string * string))
  : Response :=
  {| status := st; headers := h; body := b |}.

(** ** Request handlers *)

(** The store-on-success step shared by the handlers:
    [if (response.ok) { cache = await caches.open(name);
                        cache.put(request, response.clone()) }]
    The promise of [cache.put] is not awaited: when the cache refuses the
    response, the handler goes on all the same. *)
Definition put_if_ok (name : string) (request : Request) (response : Response)
  : Task unit :=
  if ok response then
    let! cache := caches_open name in
    detached (cache_put cache (url request) response)
  else ret ().

(** Helper: fetch and cache in the background. *)
Definition fetchAndCache (net : Network) (request : Request) : Task unit :=
  catch
    (let! response := fetch net (url request) in
     put_if_ok DYNAMIC_CACHE request response)
    (λ _, ret ()).

(** Handle API requests - network first, cache fallback. *)
Definition handleApiRequest (net : Network) (request : Request)
  : Task Response :=
  catch
    (let! response := fetch net (url request) in
     (if ok response && isCacheableApi (pathname request) then
        let! cache := caches_open DYNAMIC_CACHE in
        detached (cache_put cache (url request) response)
      else ret ()) ;;;
     ret response)
    (λ _,
     console_log2 "[SW] Network failed for API, trying cache:"
       (pathname request) ;;;
     let! cachedResponse := caches_match (url request) in
     match cachedResponse with
     | Some r => ret r
     | None =>
         ret (newResponse offlineJSON 503
                [("Content-Type", "application/json")])
     end).

(** Handle navigation requests. *)
Definition handleNavigationRequest (net : Network) (request : Request)
  : Task Response :=
  catch
    (let! response := fetch net (url request) in
     put_if_ok DYNAMIC_CACHE request response ;;;
     ret response)
    (λ _,
     console_log "[SW] Network failed for navigation, trying cache" ;;;
     let! cachedResponse := caches_match (url request) in
     match cachedResponse with
     | Some r => ret r
     | None =>
         let! offlineResponse := caches_match OFFLINE_URL in
         match offlineResponse with
         | Some r => ret r
         | None =>
             ret (newResponse getOfflineHTML 200
                    [("Content-Type", "text/html")])
         end
     end).

(** Handle static assets - cache first, network fallback. *)
Definition handleStaticAssets (net : Network) (request : Request)
  : Task Response :=
  let! cachedResponse := caches_match (url request) in
  match cachedResponse with
  | Some r =>
      detached (fetchAndCache net request) ;;;
      ret r
  | None =>
      catch
        (let! response := fetch net (url request) in
         put_if_ok DYNAMIC_CACHE request response ;;;
         ret response)
        (λ error,
         console_log2 "[SW] Failed to fetch static asset:" (url request) ;;;
         if String.eqb (destination request) "image" then
           ret (newResponse offlineSVG 200
                  [("Content-Type", "image/svg+xml")])
         else throw error)
  end.

(** Handle offline pack downloads - store in dedicated cache. *)
Definition handleOfflinePackDownload (net : Network) (request : Request)
  : Task Response :=
  catch
    (let! response := fetch net (url request) in
     (if ok response then
        let! cache := caches_open OFFLINE_PACKS_CACHE in
        detached (cache_put cache (url request) response) ;;;
        let! cl := clients_matchAll in
        for_each
          (λ client, postMessage client (OFFLINE_PACK_DOWNLOADED (url request)))
          cl
      else ret ()) ;;;
     ret response)
    (λ error,
     let! cachedResponse := caches_match (url request) in
     match cachedResponse with
     | Some r => ret r
     | None => throw error
     end).

(** ** Event listeners *)

(** The [fetch] listener.  [None]: the listener returns without calling
    [event.respondWith], the request is left to the browser.  [Some r]: the
    settlement of the promise given to [event.respondWith]. *)
Definition onFetch (net : Network) (request : Request) (w : World)
  : option (Settled Response) * World :=
  if negb (String.eqb (method request) "GET") then (None, w)
  else
    let respondWith (h : Task Response) :=
      let '(r, w') := h w in (Some r, w') in
    if startsWith (pathname request) "/api/" then
      respondWith (handleApiRequest net request)
    else if includes (pathname request) "/offline/download" then
      respondWith (handleOfflinePackDownload net request)
    else if String.eqb (mode request) "navigate" then
      respondWith (handleNavigationRequest net request)
    else
      respondWith (handleStaticAssets net request).

(** The [install] listener: the promise given to [event.waitUntil]. *)
Definition onInstall (net : Network) : Task unit :=
  console_log "[SW] Installing Syncora Service Worker..." ;;;
  catch
    (let! cache := caches_open CACHE_NAME in
     (console_log "[SW] Caching core assets" ;;;
      cache_addAll net cache CORE_ASSETS) ;;;
     (console_log "[SW] Installation complete" ;;;
      skipWaiting))
    (λ error, console_error "[SW] Installation failed:" error).

(** The callback that the [activate] listener maps over the store names. *)
Definition deleteIfOld (cacheName : string) : Task unit :=
  if bool_decide (cacheName ≠ CACHE_NAME) &&
     bool_decide (cacheName ≠ DYNAMIC_CACHE) &&
     bool_decide (cacheName ≠ OFFLINE_PACKS_CACHE)
  then
    console_log2 "[SW] Deleting old cache:" cacheName ;;;
    let! _ := caches_delete cacheName in ret ()
  else ret ().

(** The [activate] listener: the promise given to [event.waitUntil]. *)
Definition onActivate : Task unit :=
  console_log "[SW] Activating Syncora Service Worker..." ;;;
  let! cacheNames := caches_keys in
  for_each deleteIfOld cacheNames ;;;
  console_log "[SW] Activation complete" ;;;
  clients_claim.

(** *** Lifecycle

    The browser moves a worker out of [installing] when the promise given to
    the install event's [waitUntil] settles: to [installed] when it is
    fulfilled, to [redundant] (the worker is discarded) when it is
    rejected. *)
Inductive WorkerState :=
| installing | installed | activating | activated | redundant.

Definition state_after_install (r : Settled unit) : WorkerState :=
  match r with
  | Fulfilled _ => installed
  | Rejected _ => redundant
  end.

Definition emptyWorld : World :=
  {| caches := []; fetches := []; puts := []; console := []; clients := [];
     posted := []; skipWaitingCalled := false; claimed := false |}.

(** ** Notions used to state the properties *)

(** The three store names of this version of the script. *)
Definition current_stores : list string :=
  [CACHE_NAME; DYNAMIC_CACHE; OFFLINE_PACKS_CACHE].

(** The world after [caches.open(name)] and the call
    [cache.put(key, r)]: the store is there, the call is recorded, and the
    entry is written when the cache takes the response. *)
Definition after_put (name key : string) (r : Response) (w : World) : World :=
  with_puts (λ l, l ++ [(name, key)])
    (with_caches
       (λ cs, if storable key r
              then put_store name key r (open_store name cs)
              else open_store name cs) w).

(** [n] times the same request through the [fetch] listener. *)
Definition repeated (n : nat) (net : Network) (request : Request)
  (w : World) : World :=
  Nat.iter n (λ w, (onFetch net request w).2) w.

(** The deletions of the listener, one store name after the other. *)
Definition purge (cs : list (string * gmap string Response))
  (names : list string) : list (string * gmap string Response) :=
  foldl (λ cs name,
           if bool_decide (name ≠ CACHE_NAME) &&
              bool_decide (name ≠ DYNAMIC_CACHE) &&
              bool_decide (name ≠ OFFLINE_PACKS_CACHE)
           then delete_store name cs else cs) cs names.

(** Sample requests, responses and networks. *)
Module Sample.

Definition get (path mode_ destination_ : string) : Request :=
  {| url := path; pathname := path; method := "GET"; mode := mode_;
     destination := destination_ |}.

Definition curriculum : Request := get "/api/v1/curriculum/grade-9" "cors" "".
Definition chat : Request := get "/api/v1/chat/history" "cors" "".
Definition stylesheet : Request := get "/styles/app.css" "no-cors" "style".
Definition dashboard : Request := get "/dashboard" "navigate" "document".

Definition answer (text : string) : Response :=
  newResponse text 200 [("Content-Type", "text/plain")].

(** Every request is answered with status 200 and the given text. *)
Definition online (text : string) : Network := λ _, Fulfilled (answer text).

(** Every request fails. *)
Definition offline : Network := λ _, Rejected (TypeError "Failed to fetch").

(** Every request is answered, one icon of the manifest with status 404. *)
Definition icon_missing : Network :=
  λ u, if String.eqb u "/icons/icon-512x512.png"
       then Fulfilled (newResponse "Not Found" 404 [])
       else Fulfilled (answer u).

(** A worker whose dynamic store holds the style sheet. *)
Definition with_stylesheet : World :=
  with_caches
    (λ _, [(CACHE_NAME, ∅);
           (DYNAMIC_CACHE, {[ "/styles/app.css" := answer "old" ]})])
    emptyWorld.

(** A worker that finds the stores of a former version. *)
Definition with_old_stores : World :=
  with_caches
    (λ _, [("syncora-v0", {[ "/" := answer "old shell" ]});
           (CACHE_NAME, {[ "/" := answer "shell" ]});
           ("syncora-dynamic-v0", ∅);
           (DYNAMIC_CACHE, {[ "/styles/app.css" := answer "css" ]})])
    emptyWorld.

End Sample.

End ServiceWorker.

(* ====================================================================== *)
(** * Properties of the agent trace reducer *)
(* ====================================================================== *)

Section AgentTraceProperties.
Import AgentTrace.
Context `{Platform}.

(** ** What the building blocks keep *)

Lemma generateActionId_state now s :
  (generateActionId now s).2 = setActionIdCounter (S (actionIdCounter s)) s.
Proof. reflexivity. Qed.

Lemma newAction_of_state now d s :
  currentTrace (newAction_of now d s).2 = currentTrace s ∧
  allTraces (newAction_of now d s).2 = allTraces s ∧
  recentActions (newAction_of now d s).2 = recentActions s.
Proof.
  unfold newAction_of.
  destruct (js_or _ _) as [i|]; [destruct (truthy_str (Some i))|]; done.
Qed.

Lemma newAction_local_state now action s :
  currentTrace (newAction_local now action s).2 = currentTrace s ∧
  allTraces (newAction_local now action s).2 = allTraces s ∧
  recentActions (newAction_local now action s).2 = recentActions s.
Proof. done. Qed.

Lemma map_matching_length aid f (l : list AgentAction) :
  length (map_matching aid f l) = length l.
Proof. unfold map_matching. apply length_fmap. Qed.

Lemma map_matching_ids aid f (l : list AgentAction) :
  (∀ a, act_id (f a) = act_id a) →
  act_id <$> map_matching aid f l = act_id <$> l.
Proof.
  intros Hf. unfold map_matching. induction l as [|a l IH]; [done|].
  cbn. rewrite IH. f_equal. destruct (String.eqb _ _); [apply Hf | done].
Qed.

(** An entry of a mapped list comes from an entry of the list with the same
    id: itself when the id differs, its image when the id is [aid]. *)
Lemma elem_of_map_matching aid f (l : list AgentAction) b :
  (∀ a, act_id (f a) = act_id a) →
  b ∈ map_matching aid f l →
  ∃ a, a ∈ l ∧ act_id a = act_id b ∧
       (act_id b = aid → b = f a) ∧ (act_id b ≠ aid → b = a).
Proof.
  intros Hf Hb. unfold map_matching in Hb.
  apply list_elem_of_fmap in Hb as (a & -> & Ha).
  exists a. destruct (String.eqb (act_id a) aid) eqn:E.
  - apply String.eqb_eq in E. rewrite Hf. naive_solver.
  - apply String.eqb_neq in E. naive_solver.
Qed.

Lemma push_action_fields tid started a agent s :
  recentActions (push_action tid started a agent s)
    = take 50 (a :: recentActions s) ∧
  allTraces (push_action tid started a agent s) = allTraces s ∧
  currentTrace (push_action tid started a agent s)
    = Some match currentTrace s with
           | None => fresh_trace (Some tid) (Some "auto") started [a] agent
           | Some t => append_action a agent t
           end.
Proof. unfold push_action. cbn. by destruct (currentTrace s). Qed.

Lemma archive_fields mk s :
  recentActions (archive mk s) = recentActions s ∧
  currentTrace (archive mk s) = mk <$> currentTrace s ∧
  allTraces (archive mk s)
    = match currentTrace s with
      | Some t => take 20 (mk t :: allTraces s)
      | None => allTraces s
      end.
Proof. unfold archive. destruct (currentTrace s) eqn:E; cbn; by rewrite ?E. Qed.

(** What one input does to [recentActions]: an input that starts an action
    pushes it at the front and cuts the buffer to 50; [clearTraces] empties
    it; every other input keeps its length. *)
Lemma step_recentActions s now i :
  match started_action now i s with
  | Some a => recentActions (step s (now, i)) = take 50 (a :: recentActions s)
  | None =>
      recentActions (step s (now, i)) = [] ∨
      length (recentActions (step s (now, i))) = length (recentActions s)
  end.
Proof.
  destruct i as [data| | | sid | action | aid u | sum | | v | m]; cbn;
    try (by right); try (by left).
  - destruct data as [traces | tr | tid sid ts | k d | aid st out dur
                      | aid out dur | aid err | k ts dur sum | ty]; cbn;
      try (by right).
    + right. by destruct traces as [[|latest rest]|].
    + destruct (newAction_of now d s) as [a s1] eqn:E. cbn.
      destruct (newAction_of_state now d s) as (_ & _ & Hr).
      rewrite E in Hr. cbn in Hr. by rewrite Hr.
    + right. apply map_matching_length.
    + right. apply map_matching_length.
    + right. by destruct (archive_fields
        (completed_trace (js_or_default ts (toISOString now)) dur sum) s)
        as [-> _].
  - reflexivity.
  - right. apply map_matching_length.
  - right. unfold completeTrace.
    by destruct (archive_fields (locally_completed (toISOString now) sum) s)
      as [-> _].
Qed.

Lemma step_recentActions_bounded s i :
  length (recentActions s) ≤ 50 → length (recentActions (step s i)) ≤ 50.
Proof.
  intros Hs. destruct i as [now i].
  pose proof (step_recentActions s now i) as Hi.
  destruct (started_action now i s) as [a|].
  - rewrite Hi, length_take. lia.
  - destruct Hi as [-> | ->]; cbn; lia.
Qed.

Lemma run_recentActions_bounded inputs s :
  length (recentActions s) ≤ 50 →
  length (recentActions (run inputs s)) ≤ 50.
Proof.
  unfold run. revert s.
  induction inputs as [|i inputs IH]; intros s Hs; cbn; [done|].
  apply IH. by apply step_recentActions_bounded.
Qed.

(** C7.  Whatever the inputs since the provider was mounted (messages of
    the push channel and local calls, over any number of traces),
    [recentActions] holds at most 50 entries.  An input that starts an action
    puts it at the front, before the 49 newest entries of the buffer; when
    the buffer was full (50 entries), what falls out is its last, oldest
    entry. *)
Theorem recentActions_capacity (inputs : list (N * Input)) :
  let s := run inputs initialState in
  length (recentActions s) ≤ 50 ∧
  ∀ now i a,
    started_action now i s = Some a →
    recentActions (step s (now, i)) = a :: take 49 (recentActions s) ∧
    (length (recentActions s) = 50 →
     ∃ kept oldest,
       recentActions s = kept ++ [oldest] ∧
       recentActions (step s (now, i)) = a :: kept).
Proof.
  intros s.
  assert (Hs : length (recentActions s) ≤ 50).
  { apply run_recentActions_bounded. cbn. lia. }
  split; [exact Hs|].
  intros now i a Ha.
  pose proof (step_recentActions s now i) as Hi. rewrite Ha in Hi.
  split; [exact Hi|].
  intros Hfull. rewrite Hi.
  destruct (recentActions s) as [|x l] eqn:El using rev_ind; [done|].
  exists l, x. split; [done|].
  rewrite length_app in Hfull. cbn in Hfull.
  cbn. f_equal. rewrite take_app_length'; [done | lia].
Qed.

(** ** Action-start messages *)

Lemma newAction_of_id now d s i :
  js_or (nested wr_id (d_action d)) (d_action_id d) = Some i → i ≠ "" →
  act_id (newAction_of now d s).1 = i.
Proof.
  intros Hi Hne. unfold newAction_of. rewrite Hi.
  assert (truthy_str (Some i) = true) as ->; [|done].
  cbn. apply negb_true_iff. by apply String.eqb_neq.
Qed.

(** C9.  With no current trace and an empty [recentActions], an
    action-start message leaves a current trace, created on the spot (status
    running, session "auto"), whose only action is the one of the message,
    and [recentActions] is that single action.  Its id is the one the message
    carries, when it carries one. *)
Theorem action_start_creates_trace now k d s :
  currentTrace s = None → recentActions s = [] →
  let a := (newAction_of now d s).1 in
  let s' := handleWebSocketMessage now (ActionStart k d) s in
  (∃ t, currentTrace s' = Some t ∧ actions t = [a] ∧
        trace_status t = TRunning ∧ session_id t = Some "auto") ∧
  recentActions s' = [a] ∧
  length (recentActions s') = 1 ∧
  (∀ i, js_or (nested wr_id (d_action d)) (d_action_id d) = Some i →
        i ≠ "" → act_id a = i).
Proof.
  intros Ht Hr a s'.
  destruct (newAction_of_state now d s) as (Ht1 & _ & Hr1).
  assert (Hs' : s' = push_action
            (js_or_default (d_trace_id d) ("trace_" +:+ pretty now))
            (toISOString now) a (act_agent a) (newAction_of now d s).2).
  { subst s' a. cbn. by destruct (newAction_of now d s). }
  clearbody s'.
  destruct (push_action_fields
              (js_or_default (d_trace_id d) ("trace_" +:+ pretty now))
              (toISOString now) a (act_agent a) (newAction_of now d s).2)
    as (Hrec & _ & Hcur).
  rewrite <- Hs' in Hrec, Hcur. rewrite Ht1, Ht in Hcur.
  rewrite Hr1, Hr in Hrec. cbn in Hrec.
  repeat split.
  - eexists. split; [exact Hcur|]. done.
  - exact Hrec.
  - by rewrite Hrec.
  - intros i Hi Hne. by apply newAction_of_id.
Qed.

(** An input that starts an action, processed while there is a current
    trace: the trace is kept and the action is appended to it. *)
Lemma step_started_action s now i a t :
  started_action now i s = Some a → currentTrace s = Some t →
  ∃ agent, currentTrace (step s (now, i)) = Some (append_action a agent t).
Proof.
  intros Ha Ht.
  destruct i as [data| | | sid | action | aid u | sum | | v | m];
    try discriminate Ha.
  - destruct data; try discriminate Ha. cbn in Ha. injection Ha as <-.
    destruct (newAction_of_state now d s) as (Ht1 & _ & _).
    cbn. destruct (newAction_of now d s) as [a s1]. cbn in *.
    rewrite Ht1, Ht. by eexists.
  - cbn in Ha. injection Ha as <-. cbn. rewrite Ht. by eexists.
Qed.

(** C8, as the code has it.  Whatever the status of the current trace
    (running, completed or error), an action-start message or an [addAction]
    call appends the new action at the end of that trace and changes neither
    its id nor its status: a completed trace stays completed and still
    grows. *)
Theorem action_start_appends_in_any_status s now i a t :
  currentTrace s = Some t →
  started_action now i s = Some a →
  ∃ t', currentTrace (step s (now, i)) = Some t' ∧
        actions t' = actions t ++ [a] ∧
        trace_status t' = trace_status t ∧
        trace_id t' = trace_id t.
Proof.
  intros Ht Ha.
  destruct (step_started_action s now i a t Ha Ht) as [agent Hstep].
  by exists (append_action a agent t).
Qed.

(** ** Trace completion *)

Lemma trace_complete_step now k ts dur sum s t :
  currentTrace s = Some t →
  let c := completed_trace (js_or_default ts (toISOString now)) dur sum t in
  let s' := handleWebSocketMessage now (TraceComplete k ts dur sum) s in
  currentTrace s' = Some c ∧ allTraces s' = take 20 (c :: allTraces s).
Proof.
  intros Ht c s'. subst s'. cbn.
  destruct (archive_fields
    (completed_trace (js_or_default ts (toISOString now)) dur sum) s)
    as (_ & -> & ->).
  by rewrite Ht.
Qed.

Lemma completed_trace_idem at_ dur sum t :
  completed_trace at_ dur sum (completed_trace at_ dur sum t)
    = completed_trace at_ dur sum t.
Proof. done. Qed.

Lemma take_app_take {A} n m (l1 l2 : list A) :
  n ≤ m → take n (l1 ++ take m l2) = take n (l1 ++ l2).
Proof.
  revert n. induction l1 as [|x l1 IH]; intros n Hn; cbn.
  - rewrite take_take. f_equal. lia.
  - destruct n as [|n]; [done|]. cbn. f_equal. apply IH. lia.
Qed.

(** The same trace-complete message [S n] times in a row: every one of
    them puts one more copy of the completed trace at the front of
    [allTraces], and the cut to 20 applies to the copies as to any entry. *)
Lemma repeated_trace_complete now k ts dur sum n s t :
  currentTrace s = Some t →
  let c := completed_trace (js_or_default ts (toISOString now)) dur sum t in
  let s' :=
    run (replicate (S n) (now, WsMessage (TraceComplete k ts dur sum))) s in
  currentTrace s' = Some c ∧
  allTraces s' = take 20 (replicate (S n) c ++ allTraces s).
Proof.
  revert s t. induction n as [|n IH]; intros s t Ht.
  - exact (trace_complete_step now k ts dur sum s t Ht).
  - intros c s'. subst s'.
    destruct (trace_complete_step now k ts dur sum s t Ht) as [Hc Ha].
    fold c in Hc, Ha.
    destruct (IH _ _ Hc) as [Hc' Ha']. unfold c in Hc', Ha'.
    rewrite completed_trace_idem in Hc', Ha'. fold c in Hc', Ha'.
    change (run (replicate (S (S n)) (now, WsMessage ?m)) s)
      with (run (replicate (S n) (now, WsMessage m))
              (handleWebSocketMessage now m s)).
    split; [exact Hc'|].
    rewrite Ha'. rewrite Ha. rewrite take_app_take by lia.
    f_equal. rewrite (replicate_S_end (S n)), <- app_assoc. done.
Qed.

(** C10.  A trace-complete message, like a [completeTrace] call, that finds
    a current trace puts a completed copy of it at the front of [allTraces]
    (cut to 20), whatever the status of that trace, so also when it is
    completed already.  Hence the same message received [S n] times in a row
    leaves [S n] copies with the id of that trace at the front of
    [allTraces], and the cut to 20 counts them: two messages give two
    entries with the same id, twenty or more fill [allTraces] with them. *)
Theorem trace_complete_archives_every_time now s t :
  currentTrace s = Some t →
  (∀ k ts dur sum,
     let c := completed_trace (js_or_default ts (toISOString now)) dur sum t in
     let s' := handleWebSocketMessage now (TraceComplete k ts dur sum) s in
     currentTrace s' = Some c ∧ trace_id c = trace_id t ∧
     trace_status c = TCompleted ∧
     allTraces s' = take 20 (c :: allTraces s)) ∧
  (∀ sum,
     let c := locally_completed (toISOString now) sum t in
     let s' := completeTrace now sum s in
     currentTrace s' = Some c ∧ trace_id c = trace_id t ∧
     trace_status c = TCompleted ∧
     allTraces s' = take 20 (c :: allTraces s)) ∧
  (∀ k ts dur sum n,
     let c := completed_trace (js_or_default ts (toISOString now)) dur sum t in
     let s' :=
       run (replicate (S n) (now, WsMessage (TraceComplete k ts dur sum))) s in
     trace_id c = trace_id t ∧
     allTraces s' = take 20 (replicate (S n) c ++ allTraces s)).
Proof.
  intros Ht. split; [|split].
  - intros k ts dur sum c s'.
    destruct (trace_complete_step now k ts dur sum s t Ht) as [Hc Ha].
    done.
  - intros sum c s'. subst s'. unfold completeTrace.
    destruct (archive_fields (locally_completed (toISOString now) sum) s)
      as (_ & -> & ->).
    by rewrite Ht.
  - intros k ts dur sum n c s'.
    destruct (repeated_trace_complete now k ts dur sum n s t Ht) as [_ Ha].
    done.
Qed.

(** ** Dual write of the update messages *)

Lemma dual_write_fields aid f s :
  let s' :=
    setRecentActions (map_matching aid f) (update_trace_actions aid f s) in
  recentActions s' = map_matching aid f (recentActions s) ∧
  currentTrace s'
    = (λ t, with_actions (map_matching aid f (actions t)) t) <$> currentTrace s.
Proof. cbn. by destruct (currentTrace s). Qed.

Lemma dual_write_ids aid f s :
  (∀ a, act_id (f a) = act_id a) →
  let s' :=
    setRecentActions (map_matching aid f) (update_trace_actions aid f s) in
  act_id <$> recentActions s' = act_id <$> recentActions s ∧
  (λ t, act_id <$> actions t) <$> currentTrace s'
    = (λ t, act_id <$> actions t) <$> currentTrace s.
Proof.
  intros Hf. cbn. split; [by apply map_matching_ids|].
  destruct (currentTrace s) as [t|]; [|done]. cbn.
  by rewrite map_matching_ids.
Qed.

(** When the same patch [f] is applied to both collections, whatever [f]
    establishes between the patched entries holds between the copies. *)
Lemma dual_write_related aid f (P : AgentAction → AgentAction → Prop) s :
  (∀ a, act_id (f a) = act_id a) →
  (∀ t a b,
     currentTrace s = Some t → a ∈ actions t → b ∈ recentActions s →
     act_id a = aid → act_id b = aid → P (f a) (f b)) →
  copies_related aid P
    (setRecentActions (map_matching aid f) (update_trace_actions aid f s)).
Proof.
  intros Hf HP t' a' b' Ht' Ha' Hb' Hia Hib. cbn in Ht', Hb'.
  destruct (currentTrace s) as [t|] eqn:Et; [|done].
  injection Ht' as <-. cbn in Ha'.
  apply elem_of_map_matching in Ha' as (a & Ha & Hida & Hfa & _); [|done].
  apply elem_of_map_matching in Hb' as (b & Hb & Hidb & Hfb & _); [|done].
  rewrite (Hfa Hia), (Hfb Hib). apply (HP t); congruence.
Qed.

(** The same patch applied to both collections updates each of them entry
    by entry, on its own. *)
Lemma map_matching_updated aid st R dur f (l : list AgentAction) :
  (∀ a, act_id a = aid → entry_updated aid st R dur a (f a)) →
  Forall2 (entry_updated aid st R dur) l (map_matching aid f l).
Proof.
  intros Hf. unfold map_matching.
  induction l as [|a l IH]; cbn; constructor; [|exact IH].
  destruct (String.eqb (act_id a) aid) eqn:E.
  - apply String.eqb_eq in E. by apply Hf.
  - apply String.eqb_neq in E. by split.
Qed.

Lemma dual_write_updated aid st R dur f s :
  (∀ a, act_id a = aid → entry_updated aid st R dur a (f a)) →
  let s' :=
    setRecentActions (map_matching aid f) (update_trace_actions aid f s) in
  Forall2 (entry_updated aid st R dur) (recentActions s) (recentActions s') ∧
  trace_updated aid st R dur (currentTrace s) (currentTrace s') ∧
  allTraces s' = allTraces s.
Proof.
  intros Hf. cbn. split; [by apply map_matching_updated|]. split; [|done].
  destruct (currentTrace s) as [t|]; [|done]. cbn.
  split; [done | by apply map_matching_updated].
Qed.

(** C1, as the code has it.  An [action_update] or [action_completed]
    message applies one and the same patch to the entries with the message's
    action id in the current trace and in [recentActions] (the ids in both
    collections stay as they were).  After [action_update], every such pair
    of entries has the mapped status and the duration of the message; the
    outputs agree too when the message carries a truthy output, or when the
    outputs of the copies agreed before (without an output in the message,
    each copy keeps its own).  After [action_completed], every such pair has
    status completed and the output and duration of the message.

    Each collection is updated on its own, entry by entry and in order,
    whether or not the other has an entry with the id: an entry with
    another id is left as it is; an entry with the id gets the status and
    the duration of the message and keeps its other fields; its output is,
    after [action_update], the text of the message's output when that is
    truthy and the output the entry had otherwise, and after
    [action_completed] the output of the message.  The fields of the current
    trace other than its actions, and [allTraces], stay as they were. *)
Theorem update_messages_write_both_copies now aid s :
  (∀ st out dur,
     let s' := handleWebSocketMessage now (ActionUpdate aid st out dur) s in
     act_id <$> recentActions s' = act_id <$> recentActions s ∧
     (λ t, act_id <$> actions t) <$> currentTrace s'
       = (λ t, act_id <$> actions t) <$> currentTrace s ∧
     copies_related aid
       (λ a b, act_status a = updateStatus st ∧
               act_status b = updateStatus st ∧
               act_duration_ms a = dur ∧ act_duration_ms b = dur) s' ∧
     ((∃ j, out = Some j ∧ js_truthy j = true) ∨
      copies_related aid (λ a b, act_output a = act_output b) s →
      copies_related aid same_record s') ∧
     Forall2 (entry_updated aid (updateStatus st) (update_output out) dur)
       (recentActions s) (recentActions s') ∧
     trace_updated aid (updateStatus st) (update_output out) dur
       (currentTrace s) (currentTrace s') ∧
     allTraces s' = allTraces s) ∧
  (∀ out dur,
     let s' := handleWebSocketMessage now (ActionCompleted aid out dur) s in
     act_id <$> recentActions s' = act_id <$> recentActions s ∧
     (λ t, act_id <$> actions t) <$> currentTrace s'
       = (λ t, act_id <$> actions t) <$> currentTrace s ∧
     copies_related aid
       (λ a b, same_record a b ∧ act_status a = ACompleted ∧
               act_output a = out ∧ act_duration_ms a = dur) s' ∧
     Forall2 (entry_updated aid ACompleted (completed_output out) dur)
       (recentActions s) (recentActions s') ∧
     trace_updated aid ACompleted (completed_output out) dur
       (currentTrace s) (currentTrace s') ∧
     allTraces s' = allTraces s).
Proof.
  split.
  - intros st out dur s'. subst s'. cbn [handleWebSocketMessage].
    set (f := λ a, patch_action (updateStatus st)
                     (stringify_or out (act_output a)) dur a).
    assert (Hf : ∀ a, act_id (f a) = act_id a) by done.
    destruct (dual_write_ids aid f s Hf) as [Hr Hc].
    split; [exact Hr|]. split; [exact Hc|]. split; [|split].
    + by apply dual_write_related.
    + intros Hout. apply dual_write_related; [done|].
      intros t a b Ht Ha Hb Hia Hib. unfold same_record, f. cbn.
      split; [done|]. split; [|done].
      destruct Hout as [(j & -> & Hj) | Hsame].
      * cbn. by rewrite Hj.
      * rewrite (Hsame t a b Ht Ha Hb Hia Hib). done.
    + apply dual_write_updated. intros a Ha. split; [done|]. intros _.
      unfold f. cbn. repeat (split; [done|]). split; [|done].
      unfold update_output, stringify_or. split.
      * intros j -> Hj. by rewrite Hj.
      * intros Hno. destruct out as [j|]; [|done].
        by rewrite (Hno j eq_refl).
  - intros out dur s'. subst s'. cbn [handleWebSocketMessage].
    set (f := patch_action ACompleted out dur).
    assert (Hf : ∀ a, act_id (f a) = act_id a) by done.
    destruct (dual_write_ids aid f s Hf) as [Hr Hc].
    split; [exact Hr|]. split; [exact Hc|]. split.
    + by apply dual_write_related.
    + apply dual_write_updated. intros a Ha. split; [done|]. intros _.
      unfold f, completed_output. cbn. by repeat split.
Qed.

(** [action_error] patches the current trace only: [recentActions] is the
    same list before and after. *)
Lemma action_error_leaves_recentActions now aid err s :
  recentActions (handleWebSocketMessage now (ActionError aid err) s)
    = recentActions s.
Proof. done. Qed.

End AgentTraceProperties.

(** ** The reducer on concrete inputs *)

Section AgentTraceChecks.
Import AgentTrace.
Existing Instance integer_platform.

Lemma recentActions_capacity_witness :
  let s := run Sample.fifty_starts initialState in
  let a := (newAction_of 51 (Sample.start_data "51") s).1 in
  length (recentActions s) = 50 ∧
  ∃ kept oldest,
    recentActions s = kept ++ [oldest] ∧
    act_id oldest = "1" ∧
    recentActions (step s (51%N, WsMessage (Sample.start "51")))
      = a :: kept.
Proof.
  intros s a.
  assert (Hlen : length (recentActions s) = 50) by (vm_compute; reflexivity).
  split; [exact Hlen|].
  destruct (recentActions_capacity Sample.fifty_starts) as [_ Hpush].
  destruct (Hpush 51%N (WsMessage (Sample.start "51")) a) as [_ Hfull].
  { vm_compute. reflexivity. }
  destruct (Hfull Hlen) as (kept & oldest & Hs & Hs').
  exists kept, oldest. split; [exact Hs|]. split; [|exact Hs'].
  fold s in Hs.
  assert (Hlast : last (recentActions s) = Some oldest)
    by (rewrite Hs; apply last_snoc).
  vm_compute in Hlast. injection Hlast as <-. reflexivity.
Defined.

Lemma action_start_creates_trace_witness :
  let a := (newAction_of 5 (Sample.start_data "a1") initialState).1 in
  let s' := handleWebSocketMessage 5 (Sample.start "a1") initialState in
  act_id a = "a1" ∧
  (∃ t, currentTrace s' = Some t ∧ actions t = [a] ∧
        trace_status t = TRunning ∧ session_id t = Some "auto") ∧
  recentActions s' = [a] ∧
  length (recentActions s') = 1.
Proof.
  intros a s'.
  destruct (action_start_creates_trace 5 agent_action
              (Sample.start_data "a1") initialState)
    as (Ht & Hr & Hl & Hid); [reflexivity | reflexivity |].
  split; [|split; [exact Ht | split; [exact Hr | exact Hl]]].
  apply Hid; [reflexivity | discriminate].
Defined.

(** C8 fails as stated: the current trace is completed, an action-start
    message arrives, and the current trace is the same trace (same id, still
    completed) with one action more. *)
Lemma completed_trace_still_grows :
  ∃ t t',
    currentTrace Sample.completed_state = Some t ∧
    trace_status t = TCompleted ∧ actions t = [] ∧
    currentTrace
      (step Sample.completed_state (3%N, WsMessage (Sample.start "a1")))
      = Some t' ∧
    trace_id t' = trace_id t ∧ trace_status t' = TCompleted ∧
    act_id <$> actions t' = ["a1"].
Proof. do 2 eexists. repeat split; reflexivity. Qed.

Lemma action_start_appends_in_any_status_witness :
  ∃ t t' a,
    currentTrace Sample.completed_state = Some t ∧
    trace_status t = TCompleted ∧
    currentTrace
      (step Sample.completed_state (3%N, WsMessage (Sample.start "a1")))
      = Some t' ∧
    actions t' = actions t ++ [a] ∧
    trace_status t' = trace_status t ∧
    trace_id t' = trace_id t.
Proof.
  eexists _, _, _. split; [reflexivity|]. split; [reflexivity|].
  destruct (action_start_appends_in_any_status Sample.completed_state 3
              (WsMessage (Sample.start "a1"))
              (newAction_of 3 (Sample.start_data "a1")
                 Sample.completed_state).1
              (default (fresh_trace None None "" [] None)
                 (currentTrace Sample.completed_state)))
    as (t' & Ht' & Hrest); [reflexivity | reflexivity |].
  vm_compute in Ht'. injection Ht' as <-.
  split; [reflexivity|]. exact Hrest.
Defined.

Lemma trace_complete_archives_every_time_witness :
  let s := step initialState (1%N, WsMessage Sample.trace_started) in
  let s2 := run [(2%N, WsMessage Sample.complete);
                 (2%N, WsMessage Sample.complete)] s in
  let s21 := run (replicate 21 (2%N, WsMessage Sample.complete)) s in
  trace_id <$> allTraces s2 = [Some "t1"; Some "t1"] ∧
  trace_id <$> allTraces s21 = replicate 20 (Some "t1").
Proof.
  intros s s2 s21.
  destruct (trace_complete_archives_every_time 2 s
              (fresh_trace (Some "t1") (Some "s1") (toISOString 1%N) [] None))
    as (_ & _ & Hn); [reflexivity|].
  split.
  - destruct (Hn trace_complete None
                (Some (40%Z : @number integer_platform)) (Some "done") 1)
      as [_ Ha].
    rewrite (Ha : allTraces s2 = _). reflexivity.
  - destruct (Hn trace_complete None
                (Some (40%Z : @number integer_platform)) (Some "done") 20)
      as [_ Ha].
    rewrite (Ha : allTraces s21 = _). reflexivity.
Defined.

(** C1 fails as stated: the id [a1] is in both collections, an
    [action_update] without output is processed, and afterwards the copy in
    the current trace has the output of the snapshot while the copy in
    [recentActions] has none. *)
Lemma action_update_copies_differ :
  let s' := handleWebSocketMessage 3
              (ActionUpdate "a1" (Some "completed") None
                 (Some (30%Z : @number integer_platform)))
              Sample.resynchronised_state in
  (∃ t, currentTrace Sample.resynchronised_state = Some t ∧
        act_id <$> actions t = ["a1"]) ∧
  act_id <$> recentActions Sample.resynchronised_state = ["a1"] ∧
  (∃ t, currentTrace s' = Some t ∧
        act_output <$> actions t = [Some "7"]) ∧
  act_output <$> recentActions s' = [None] ∧
  ¬ copies_related "a1" same_record s'.
Proof.
  intros s'. split; [by eexists|]. split; [done|].
  split; [by eexists|]. split; [done|].
  intros Hc.
  destruct (currentTrace s') as [t|] eqn:Et; [|discriminate Et].
  set (a0 := (newAction_of 1 (Sample.start_data "a1") initialState).1).
  destruct (Hc t (default a0 (head (actions t)))
              (default a0 (head (recentActions s'))) Et)
    as (_ & Hout & _).
  - vm_compute in Et. injection Et as <-. apply list_elem_of_here.
  - apply list_elem_of_here.
  - vm_compute in Et. by injection Et as <-.
  - reflexivity.
  - vm_compute in Et. injection Et as <-. discriminate Hout.
Qed.

(** The sibling case [action_error] does not write to [recentActions] at
    all: after it, the copy in the current trace is in error with the text
    of the message, the copy in [recentActions] is still running. *)
Lemma action_error_copies_differ :
  let s := step initialState (1%N, WsMessage (Sample.start "a1")) in
  let s' := handleWebSocketMessage 2 (ActionError "a1" (Some "boom")) s in
  (∃ t, currentTrace s' = Some t ∧
        (λ a, (act_id a, act_status a, act_output a)) <$> actions t
          = [("a1", AError, Some "boom")]) ∧
  (λ a, (act_id a, act_status a, act_output a)) <$> recentActions s'
    = [("a1", ARunning, None)].
Proof. split; [by eexists|done]. Qed.

Lemma update_messages_write_both_copies_witness :
  let s := step initialState (1%N, WsMessage (Sample.start "a1")) in
  let s' := handleWebSocketMessage 2
              (ActionUpdate "a1" (Some "completed")
                 (Some (7%Z : @Json integer_platform))
                 (Some (30%Z : @number integer_platform))) s in
  act_id <$> recentActions s' = ["a1"] ∧
  copies_related "a1" same_record s' ∧
  Forall2
    (entry_updated "a1" ACompleted
       (update_output (Some (7%Z : @Json integer_platform)))
       (Some (30%Z : @number integer_platform)))
    (recentActions s) (recentActions s') ∧
  trace_updated "a1" ACompleted
    (update_output (Some (7%Z : @Json integer_platform)))
    (Some (30%Z : @number integer_platform))
    (currentTrace s) (currentTrace s').
Proof.
  intros s s'.
  destruct (update_messages_write_both_copies 2 "a1" s) as [Hu _].
  destruct (Hu (Some "completed") (Some (7%Z : @Json integer_platform))
              (Some (30%Z : @number integer_platform)))
    as (Hids & _ & _ & Hsame & Hrecent & Htrace & _).
  split; [exact Hids|]. split; [|split; [exact Hrecent | exact Htrace]].
  apply Hsame. left. eexists. split; reflexivity.
Defined.

(** The update reaches the current trace when [recentActions] has no entry
    with the id (it was cleared meanwhile), and an update without output
    leaves the output the entry had. *)
Example update_after_cleared_recentActions :
  let s := setRecentActions (λ _, []) Sample.resynchronised_state in
  let s' := handleWebSocketMessage 3
              (ActionUpdate "a1" (Some "completed") None
                 (Some (30%Z : @number integer_platform))) s in
  recentActions s' = [] ∧
  ∃ t, currentTrace s' = Some t ∧
       (λ a, (act_id a, act_status a, act_output a, act_duration_ms a))
         <$> actions t
       = [("a1", ACompleted, Some "7",
           Some (30%Z : @number integer_platform))].
Proof. split; [done | by eexists]. Qed.

End AgentTraceChecks.

(* ====================================================================== *)
(** * Properties of the offline cache controller *)
(* ====================================================================== *)

Section ServiceWorkerProperties.
Import ServiceWorker.

Local Arguments isCacheableApi : simpl never.
Local Arguments startsWith : simpl never.
Local Arguments includes : simpl never.
Local Arguments ok : simpl never.
Local Arguments getOfflineHTML : simpl never.
Local Arguments offlineJSON : simpl never.
Local Arguments offlineSVG : simpl never.
Local Arguments open_store : simpl never.
Local Arguments put_store : simpl never.
Local Arguments delete_store : simpl never.
Local Arguments storable : simpl never.

Local Ltac run_task :=
  unfold bind, catch, ret, throw, detached, fetch, caches_open, cache_put,
    caches_match, console_log, console_log2, console_error; cbn.

(** ** Cache storage *)

Lemma get_store_Some name cs :
  name ∈ cs.*1 → is_Some (get_store name cs).
Proof.
  induction cs as [|[n c] cs IH]; cbn; [by intros ?%not_elem_of_nil|].
  intros [->|Hin]%elem_of_cons.
  - rewrite bool_decide_eq_true_2; by eauto.
  - case_bool_decide; by eauto.
Qed.

Lemma get_store_snoc name cs c :
  name ∉ cs.*1 → get_store name (cs ++ [(name, c)]) = Some c.
Proof.
  induction cs as [|[n c'] cs IH]; cbn.
  - intros _. by rewrite bool_decide_eq_true_2.
  - intros [Hne Hnin]%not_elem_of_cons.
    rewrite bool_decide_eq_false_2 by done. by apply IH.
Qed.

Lemma get_store_open name cs :
  is_Some (get_store name (open_store name cs)).
Proof.
  unfold open_store. case_bool_decide as Hin.
  - by apply get_store_Some.
  - rewrite get_store_snoc; by eauto.
Qed.

Lemma get_store_put name key r cs :
  get_store name (put_store name key r cs)
    = (λ c, <[key := r]> c) <$> get_store name cs.
Proof.
  unfold put_store. induction cs as [|[n c] cs IH]; cbn; [done|].
  case_bool_decide as Hn; cbn.
  - by rewrite bool_decide_eq_true_2.
  - by rewrite bool_decide_eq_false_2.
Qed.

(** After [caches.open(name)] and [cache.put(key, r)], the store [name]
    holds [r] under [key]. *)
Lemma store_entry_open_put name key r cs :
  store_entry name key (put_store name key r (open_store name cs)) = Some r.
Proof.
  unfold store_entry. rewrite get_store_put.
  destruct (get_store_open name cs) as [c ->]. cbn.
  apply lookup_insert_eq.
Qed.

(** ** The handlers *)

(** A store that is there keeps its entries when it is opened; one that is
    opened for the first time has none. *)
Lemma store_entry_open name' key name cs :
  store_entry name' key (open_store name cs) = store_entry name' key cs.
Proof.
  unfold store_entry, open_store. case_bool_decide as Hin; [done|].
  induction cs as [|[n c] cs IH]; cbn.
  - by case_bool_decide.
  - apply not_elem_of_cons in Hin as [Hne Hin].
    case_bool_decide; [done|]. by apply IH.
Qed.

Lemma store_names_open name cs :
  (open_store name cs).*1 = cs.*1 ∨ (open_store name cs).*1 = cs.*1 ++ [name].
Proof.
  unfold open_store. case_bool_decide; [by left|]. right.
  by rewrite fmap_app.
Qed.

(** [caches.open] followed by the call of [cache.put] that is not
    awaited. *)
Lemma open_put_world name key r w :
  (let! cache := caches_open name in detached (cache_put cache key r)) w
    = (Fulfilled (), after_put name key r w).
Proof.
  unfold bind, caches_open, detached, cache_put, after_put.
  by destruct (storable key r).
Qed.

Lemma put_if_ok_world name request response w :
  put_if_ok name request response w
    = (Fulfilled (),
       if ok response then after_put name (url request) response w else w).
Proof.
  unfold put_if_ok. destruct (ok response); [|done]. apply open_put_world.
Qed.

(** [handleApiRequest] when the network answers. *)
Lemma handleApiRequest_online net request response w :
  net (url request) = Fulfilled response →
  handleApiRequest net request w
    = (Fulfilled response,
       let w1 := with_fetches (λ l, l ++ [url request]) w in
       if ok response && isCacheableApi (pathname request) then
         after_put DYNAMIC_CACHE (url request) response w1
       else w1).
Proof.
  intros Hnet. unfold handleApiRequest.
  unfold catch. unfold bind at 1. unfold fetch at 1. rewrite Hnet.
  unfold bind at 1.
  destruct (ok response && isCacheableApi (pathname request)).
  - by rewrite open_put_world.
  - done.
Qed.

(** [handleApiRequest] when the network fails: no store is written. *)
Lemma handleApiRequest_offline net request e w :
  net (url request) = Rejected e →
  (handleApiRequest net request w).1
    = Fulfilled (default
        (newResponse offlineJSON 503 [("Content-Type", "application/json")])
        (match_stores (url request) (caches w))) ∧
  caches (handleApiRequest net request w).2 = caches w ∧
  puts (handleApiRequest net request w).2 = puts w ∧
  fetches (handleApiRequest net request w).2 = fetches w ++ [url request].
Proof.
  intros Hnet. unfold handleApiRequest. run_task. rewrite Hnet. cbn.
  by destruct (match_stores (url request) (caches w)).
Qed.

(** An API request for a path outside the allowlist never writes to a
    store, whatever the network does. *)
Lemma handleApiRequest_not_allowlisted net request w :
  isCacheableApi (pathname request) = false →
  caches (handleApiRequest net request w).2 = caches w ∧
  puts (handleApiRequest net request w).2 = puts w ∧
  fetches (handleApiRequest net request w).2 = fetches w ++ [url request].
Proof.
  intros Hno. destruct (net (url request)) as [response|e] eqn:Hnet.
  - rewrite (handleApiRequest_online _ _ _ _ Hnet), Hno, andb_false_r. done.
  - by destruct (handleApiRequest_offline net request e w Hnet) as (_ & ? & ? & ?).
Qed.

(** The dispatch of the [fetch] listener. *)
Lemma onFetch_api net request w :
  method request = "GET" →
  startsWith (pathname request) "/api/" = true →
  onFetch net request w
    = (Some (handleApiRequest net request w).1,
       (handleApiRequest net request w).2).
Proof.
  intros Hm Hp. unfold onFetch. rewrite Hm, Hp.
  generalize (handleApiRequest net request). intros h. cbn.
  by destruct (h w).
Qed.

Lemma onFetch_navigation net request w :
  method request = "GET" →
  startsWith (pathname request) "/api/" = false →
  includes (pathname request) "/offline/download" = false →
  mode request = "navigate" →
  onFetch net request w
    = (Some (handleNavigationRequest net request w).1,
       (handleNavigationRequest net request w).2).
Proof.
  intros Hm Hp Hd Hn. unfold onFetch. rewrite Hm, Hp, Hd, Hn.
  generalize (handleNavigationRequest net request). intros h. cbn.
  by destruct (h w).
Qed.

Lemma onFetch_static net request w :
  method request = "GET" →
  startsWith (pathname request) "/api/" = false →
  includes (pathname request) "/offline/download" = false →
  mode request ≠ "navigate" →
  onFetch net request w
    = (Some (handleStaticAssets net request w).1,
       (handleStaticAssets net request w).2).
Proof.
  intros Hm Hp Hd Hn. unfold onFetch.
  apply String.eqb_neq in Hn. rewrite Hm, Hp, Hd, Hn.
  generalize (handleStaticAssets net request). intros h. cbn.
  by destruct (h w).
Qed.

(** ** API requests *)

Lemma repeated_not_allowlisted n net request w :
  method request = "GET" →
  startsWith (pathname request) "/api/" = true →
  isCacheableApi (pathname request) = false →
  caches (repeated n net request w) = caches w ∧
  puts (repeated n net request w) = puts w ∧
  fetches (repeated n net request w) = fetches w ++ replicate n (url request).
Proof.
  intros Hm Hp Hc. induction n as [|n (IHc & IHp & IHf)].
  - cbn. by rewrite app_nil_r.
  - change (repeated (S n) net request w)
      with (onFetch net request (repeated n net request w)).2.
    rewrite (onFetch_api net request _ Hm Hp). cbn [snd].
    destruct (handleApiRequest_not_allowlisted net request
                (repeated n net request w) Hc) as (-> & -> & ->).
    rewrite IHf, replicate_S_end, app_assoc. done.
Qed.

(** C2, as the code has it.  A GET request for a path under [/api/] whose
    fetch is fulfilled with an ok response is answered with that response
    after one network call.  [cache.put] is called, on the dynamic store
    and under the key of the request, exactly when the path starts with a
    prefix of the allowlist.  The response is then in the store when the
    cache takes it; when the cache refuses it (status 206, [Vary: *], a URL
    that is not http(s)) the call, which is not awaited, leaves the store
    opened and every entry as it was.  For a path outside the allowlist no
    store is written, and this stays so however often the request is
    repeated: every repetition is a network call, and what the cache
    storage holds for the request is what it held before. *)
Theorem api_response_cached_iff_allowlisted_and_accepted
    net request response w :
  method request = "GET" →
  startsWith (pathname request) "/api/" = true →
  net (url request) = Fulfilled response →
  ok response = true →
  let w' := (onFetch net request w).2 in
  (onFetch net request w).1 = Some (Fulfilled response) ∧
  fetches w' = fetches w ++ [url request] ∧
  puts w' = puts w ++
    (if isCacheableApi (pathname request)
     then [(DYNAMIC_CACHE, url request)] else []) ∧
  (isCacheableApi (pathname request) = true →
   storable (url request) response = true →
   caches w' = put_store DYNAMIC_CACHE (url request) response
                 (open_store DYNAMIC_CACHE (caches w)) ∧
   store_entry DYNAMIC_CACHE (url request) (caches w') = Some response) ∧
  (isCacheableApi (pathname request) = true →
   storable (url request) response = false →
   caches w' = open_store DYNAMIC_CACHE (caches w) ∧
   ∀ name key,
     store_entry name key (caches w') = store_entry name key (caches w)) ∧
  (isCacheableApi (pathname request) = false →
   ∀ n, caches (repeated n net request w) = caches w ∧
        puts (repeated n net request w) = puts w ∧
        fetches (repeated n net request w)
          = fetches w ++ replicate n (url request) ∧
        match_stores (url request) (caches (repeated n net request w))
          = match_stores (url request) (caches w)).
Proof.
  intros Hm Hp Hnet Hok w'. subst w'.
  rewrite (onFetch_api net request w Hm Hp).
  rewrite (handleApiRequest_online net request response w Hnet).
  rewrite Hok. cbn [fst snd andb].
  split; [done|].
  destruct (isCacheableApi (pathname request)) eqn:Hc.
  - split; [done|]. split; [done|]. split; [|split; [|done]].
    + intros _ Hst. unfold after_put. cbn. rewrite Hst.
      split; [done|]. apply store_entry_open_put.
    + intros _ Hst. unfold after_put. cbn. rewrite Hst.
      split; [done|]. intros name key. apply store_entry_open.
  - split; [done|]. split; [cbn; by rewrite app_nil_r|].
    split; [done|]. split; [done|].
    intros _ n.
    destruct (repeated_not_allowlisted n net request w Hm Hp Hc)
      as (Hcs & Hps & Hfs).
    by rewrite Hcs.
Qed.

(** ** Static assets *)

Lemma fetchAndCache_world net request w :
  (fetchAndCache net request w).1 = Fulfilled () ∧
  fetches (fetchAndCache net request w).2 = fetches w ++ [url request] ∧
  (∀ fresh, net (url request) = Fulfilled fresh → ok fresh = true →
     caches (fetchAndCache net request w).2
       = if storable (url request) fresh
         then put_store DYNAMIC_CACHE (url request) fresh
                (open_store DYNAMIC_CACHE (caches w))
         else open_store DYNAMIC_CACHE (caches w)) ∧
  ((∀ fresh, net (url request) = Fulfilled fresh → ok fresh = false) →
   caches (fetchAndCache net request w).2 = caches w).
Proof.
  unfold fetchAndCache. unfold catch, bind, fetch.
  destruct (net (url request)) as [response|e] eqn:Hnet.
  - rewrite put_if_ok_world. cbn [fst snd].
    destruct (ok response) eqn:Hok.
    + split; [done|]. split; [done|]. split.
      * by intros fresh [= <-] _.
      * intros Hno. specialize (Hno response eq_refl). congruence.
    + split; [done|]. split; [done|]. split; [|done].
      intros fresh [= <-] Hok'. congruence.
  - cbn. split; [done|]. split; [done|]. split; [|done].
    intros fresh [=].
Qed.

(** C4.  A GET request that the listener treats as a static asset (not
    under [/api/], no download marker, not a navigation) and for which the
    cache storage has an entry is answered with that entry, whatever the
    network returns meanwhile; [fetch] is called once, for the same key.
    An ok response of that call that the cache takes replaces the entry in
    the dynamic store; when the fetch fails or its response is not ok, the
    stores stay as they were; when the cache refuses the ok response (status
    206, [Vary: *], a URL that is not http(s)), every entry stays as it
    was. *)
Theorem static_asset_hit_is_served_and_refreshed net request cached w :
  method request = "GET" →
  startsWith (pathname request) "/api/" = false →
  includes (pathname request) "/offline/download" = false →
  mode request ≠ "navigate" →
  match_stores (url request) (caches w) = Some cached →
  let w' := (onFetch net request w).2 in
  (onFetch net request w).1 = Some (Fulfilled cached) ∧
  fetches w' = fetches w ++ [url request] ∧
  (∀ fresh, net (url request) = Fulfilled fresh → ok fresh = true →
     storable (url request) fresh = true →
     store_entry DYNAMIC_CACHE (url request) (caches w') = Some fresh) ∧
  (∀ fresh, net (url request) = Fulfilled fresh → ok fresh = true →
     storable (url request) fresh = false →
     ∀ name key,
       store_entry name key (caches w') = store_entry name key (caches w)) ∧
  ((∀ fresh, net (url request) = Fulfilled fresh → ok fresh = false) →
   caches w' = caches w).
Proof.
  intros Hm Hp Hd Hn Hhit w'. subst w'.
  rewrite (onFetch_static net request w Hm Hp Hd Hn).
  assert (Hh : handleStaticAssets net request w
               = (Fulfilled cached, (fetchAndCache net request w).2)).
  { unfold handleStaticAssets. unfold bind at 1. unfold caches_match.
    rewrite Hhit. unfold bind, detached, ret. done. }
  rewrite Hh. cbn [fst snd].
  destruct (fetchAndCache_world net request w) as (_ & Hf & Hc & Hno).
  split; [done|]. split; [exact Hf|]. split; [|split].
  - intros fresh Hnet Hok Hst. rewrite (Hc fresh Hnet Hok), Hst.
    apply store_entry_open_put.
  - intros fresh Hnet Hok Hst name key. rewrite (Hc fresh Hnet Hok), Hst.
    apply store_entry_open.
  - exact Hno.
Qed.

(** ** Navigation requests *)

(** C5.  A GET navigation request (not under [/api/], no download marker)
    whose fetch is rejected, with no entry for the request and none for
    [/offline.html] in the cache storage, is answered with the built-in
    fallback document: status 200, content type [text/html], the text of
    [getOfflineHTML]. *)
Theorem navigation_falls_back_to_builtin_page net request e w :
  method request = "GET" →
  startsWith (pathname request) "/api/" = false →
  includes (pathname request) "/offline/download" = false →
  mode request = "navigate" →
  net (url request) = Rejected e →
  match_stores (url request) (caches w) = None →
  match_stores OFFLINE_URL (caches w) = None →
  (onFetch net request w).1
    = Some (Fulfilled {| status := 200;
                         headers := [("Content-Type", "text/html")];
                         body := getOfflineHTML |}) ∧
  caches (onFetch net request w).2 = caches w.
Proof.
  intros Hm Hp Hd Hn Hnet Hreq Hoff.
  rewrite (onFetch_navigation net request w Hm Hp Hd Hn).
  unfold handleNavigationRequest. run_task. rewrite Hnet. cbn.
  rewrite Hreq. cbn. rewrite Hoff. done.
Qed.

(** ** Activation *)

Lemma filter_ext_elem {A} (P1 P2 : A → Prop)
    `{!∀ x, Decision (P1 x), !∀ x, Decision (P2 x)} (l : list A) :
  (∀ x, x ∈ l → P1 x ↔ P2 x) → filter P1 l = filter P2 l.
Proof.
  induction l as [|a l IH]; intros HP; [done|].
  assert (filter P1 l = filter P2 l) as Hl.
  { apply IH. intros x Hx. apply HP. by right. }
  destruct (decide (P1 a)) as [Ha|Ha].
  - rewrite !filter_cons_True; [by rewrite Hl | | done].
    apply HP; [left | done].
  - rewrite !filter_cons_False; [done | | done].
    intros Ha'. apply Ha, HP; [left | done].
Qed.

(** The test of the [activate] listener: the name is none of the three. *)
Lemma stale_test name :
  bool_decide (name ≠ CACHE_NAME) && bool_decide (name ≠ DYNAMIC_CACHE) &&
    bool_decide (name ≠ OFFLINE_PACKS_CACHE) = true
  ↔ name ∉ current_stores.
Proof.
  rewrite !andb_true_iff, !bool_decide_eq_true. unfold current_stores.
  rewrite !not_elem_of_cons. pose proof (not_elem_of_nil name). tauto.
Qed.

Lemma purge_filter names cs :
  purge cs names
    = filter (λ p, p.1 ∈ current_stores ∨ p.1 ∉ names) cs.
Proof.
  unfold purge. revert cs. induction names as [|n names IH]; intros cs; cbn.
  - induction cs as [|p cs IHcs]; [done|].
    rewrite filter_cons_True; [by rewrite <- IHcs|].
    right. apply not_elem_of_nil.
  - rewrite IH.
    destruct (bool_decide (n ≠ CACHE_NAME) && bool_decide (n ≠ DYNAMIC_CACHE)
              && bool_decide (n ≠ OFFLINE_PACKS_CACHE)) eqn:Hn.
    + apply stale_test in Hn. unfold delete_store.
      rewrite list_filter_filter. apply list_filter_iff. intros p.
      rewrite not_elem_of_cons. split.
      * intros [[?|?] ?]; auto.
      * intros [Hc|[? ?]]; [|auto]. split; [auto|].
        intros Heq. rewrite Heq in Hc. done.
    + assert (n ∈ current_stores) as Hc.
      { destruct (decide (n ∈ current_stores)) as [|Hno]; [done|].
        apply stale_test in Hno. congruence. }
      apply list_filter_iff. intros p. rewrite not_elem_of_cons. split.
      * intros [?|?]; [auto|].
        destruct (decide (p.1 = n)) as [Heq|]; [|auto].
        left. by rewrite Heq.
      * intros [?|[? ?]]; auto.
Qed.

Lemma purge_all cs :
  purge cs (cs.*1) = filter (λ p, p.1 ∈ current_stores) cs.
Proof.
  rewrite purge_filter. apply filter_ext_elem. intros p Hp. split.
  - intros [?|Hno]; [done|]. destruct Hno. by apply list_elem_of_fmap_2.
  - auto.
Qed.

Lemma deleteIfOld_world name w :
  (deleteIfOld name w).1 = Fulfilled () ∧
  caches (deleteIfOld name w).2 = purge (caches w) [name].
Proof.
  unfold deleteIfOld, purge. cbn [foldl].
  by destruct (bool_decide (name ≠ CACHE_NAME) &&
               bool_decide (name ≠ DYNAMIC_CACHE) &&
               bool_decide (name ≠ OFFLINE_PACKS_CACHE)).
Qed.

(** The loop of the listener returns, and leaves the stores of [purge]. *)
Lemma activate_loop names w :
  (for_each deleteIfOld names w).1 = Fulfilled () ∧
  caches (for_each deleteIfOld names w).2 = purge (caches w) names.
Proof.
  revert w. induction names as [|n names IH]; intros w; [done|].
  cbn [for_each]. unfold bind.
  destruct (deleteIfOld_world n w) as [Hr Hc].
  destruct (deleteIfOld n w) as [r w2]. cbn in Hr, Hc. subst r.
  destruct (IH w2) as [Hr' Hc']. split; [exact Hr'|].
  rewrite Hc', Hc. done.
Qed.

Lemma onActivate_world w :
  (onActivate w).1 = Fulfilled () ∧
  caches (onActivate w).2 = filter (λ p, p.1 ∈ current_stores) (caches w) ∧
  claimed (onActivate w).2 = true.
Proof.
  unfold onActivate, bind, console_log, caches_keys, clients_claim.
  match goal with
  | |- context [for_each deleteIfOld ?ns ?w0] =>
      destruct (activate_loop ns w0) as [Hr Hc];
      destruct (for_each deleteIfOld ns w0) as [r w2]
  end.
  cbn in Hr, Hc. subst r. cbn.
  rewrite Hc. by rewrite purge_all.
Qed.

(** C6.  The activation step completes, and the cache stores it leaves are
    those of before whose name is one of the three current names, unchanged
    and in the same order: a store name that existed before activation and
    is none of the three is not a store name any more, and a store with one
    of the three names is still there with its content. *)
Theorem activation_purges_stale_stores w :
  let w' := (onActivate w).2 in
  (onActivate w).1 = Fulfilled () ∧
  caches w' = filter (λ p, p.1 ∈ current_stores) (caches w) ∧
  (∀ name, name ∈ (caches w).*1 → name ∉ current_stores →
           name ∉ (caches w').*1) ∧
  (∀ name c, name ∈ current_stores → (name, c) ∈ caches w →
             (name, c) ∈ caches w').
Proof.
  intros w'. subst w'. destruct (onActivate_world w) as (Hr & Hc & _).
  split; [exact Hr|]. split; [exact Hc|]. rewrite Hc. split.
  - intros name _ Hstale [p [-> Hp]]%list_elem_of_fmap.
    apply list_elem_of_filter in Hp as [Hcur _]. done.
  - intros name c Hcur Hin. apply list_elem_of_filter. done.
Qed.

(** ** Installation *)

Lemma fetch_all_world net urls w :
  (fetch_all net urls w).2 = with_fetches (λ l, l ++ urls) w.
Proof.
  revert w. induction urls as [|u urls IH]; intros w.
  - destruct w. unfold with_fetches. cbn. by rewrite app_nil_r.
  - cbn [fetch_all]. unfold fetch at 1.
    specialize (IH (with_fetches (λ l, l ++ [u]) w)).
    destruct (fetch_all net urls _) as [rs w2]. cbn in IH. subst w2.
    cbn. destruct w. unfold with_fetches. cbn. by rewrite <- app_assoc.
Qed.

(** One asset that cannot be fetched, or is answered with a status that is
    not ok, makes the whole of [fetch_all] fail. *)
Lemma fetch_all_one_failure net urls u w :
  u ∈ urls →
  (∀ r, net u = Fulfilled r → ok r = false) →
  ∃ e, (fetch_all net urls w).1 = Rejected e.
Proof.
  intros Hu Hfail. revert w.
  induction urls as [|v urls IH]; intros w; [by apply elem_of_nil in Hu|].
  cbn [fetch_all]. unfold fetch at 1.
  destruct (fetch_all net urls (with_fetches (λ l, l ++ [v]) w))
    as [rs w2] eqn:Ers.
  apply elem_of_cons in Hu as [<-|Hu].
  - destruct (net u) as [x|e] eqn:Hnet; cbn.
    + rewrite (Hfail x eq_refl). by eauto.
    + by eauto.
  - destruct (IH Hu (with_fetches (λ l, l ++ [v]) w)) as [e He].
    rewrite Ers in He. cbn in He. subst rs.
    destruct (net v) as [x|e']; cbn;
      [destruct (ok x && storable v x)|]; by eauto.
Qed.

(** The promise that [onInstall] hands to [waitUntil] is never rejected:
    the handler of [catch] turns every failure into a fulfilment. *)
Lemma onInstall_never_rejects net w :
  (onInstall net w).1 = Fulfilled ().
Proof.
  unfold onInstall. unfold bind at 1. unfold console_log at 1.
  unfold catch.
  match goal with
  | |- context [match ?m with _ => _ end] => destruct m as [[[]|e] w2]
  end; done.
Qed.

(** What [onInstall] does when an asset of the manifest fails: the core
    store is opened and nothing is put in it, every asset was requested
    once, the failure is logged, the completion is not, [skipWaiting] is
    not called, and the promise given to [waitUntil] is fulfilled. *)
Lemma onInstall_failure net u w :
  u ∈ CORE_ASSETS →
  (∀ r, net u = Fulfilled r → ok r = false) →
  ∃ e,
    onInstall net w
      = (Fulfilled (),
         with_console
           (λ c, c ++ [Log "[SW] Caching core assets";
                       LogError "[SW] Installation failed:" e])
           (with_fetches (λ l, l ++ CORE_ASSETS)
              (with_caches (open_store CACHE_NAME)
                 (with_console
                    (λ c, c ++ [Log "[SW] Installing Syncora Service Worker..."])
                    w)))).
Proof.
  intros Hu Hfail. unfold onInstall.
  unfold bind at 1. unfold console_log at 1. unfold catch.
  unfold bind at 1. unfold caches_open at 1.
  unfold bind at 1. unfold bind at 1. unfold console_log at 1.
  unfold cache_addAll. unfold bind at 1.
  match goal with
  | |- context [fetch_all net CORE_ASSETS ?w0] =>
      destruct (fetch_all_one_failure net CORE_ASSETS u w0 Hu Hfail) as [e He];
      pose proof (fetch_all_world net CORE_ASSETS w0) as Hw;
      destruct (fetch_all net CORE_ASSETS w0) as [rs w2]
  end.
  cbn in He, Hw. subst rs w2. exists e.
  unfold console_error. f_equal.
  destruct w. unfold with_console, with_fetches, with_caches. cbn.
  by rewrite <- app_assoc.
Qed.

(** C3 on the code.  When an asset of the manifest cannot be fetched, or
    is answered with a status that is not ok, nothing is put in the core
    store, every asset was requested once (no retry), the failure is logged
    and [skipWaiting] is not called.  But the promise given to [waitUntil]
    is fulfilled, not rejected: the browser takes the installation as
    successful and moves the worker to installed. *)
Theorem install_failure_is_swallowed net u w :
  u ∈ CORE_ASSETS →
  (∀ r, net u = Fulfilled r → ok r = false) →
  let r := (onInstall net w).1 in
  let w' := (onInstall net w).2 in
  r = Fulfilled () ∧
  state_after_install r = installed ∧
  caches w' = open_store CACHE_NAME (caches w) ∧
  puts w' = puts w ∧
  fetches w' = fetches w ++ CORE_ASSETS ∧
  skipWaitingCalled w' = skipWaitingCalled w ∧
  ∃ e, console w'
         = console w ++ [Log "[SW] Installing Syncora Service Worker...";
                         Log "[SW] Caching core assets";
                         LogError "[SW] Installation failed:" e].
Proof.
  intros Hu Hfail r w'. subst r w'.
  destruct (onInstall_failure net u w Hu Hfail) as [e ->].
  cbn [fst snd]. repeat split. exists e. cbn. by rewrite <- app_assoc.
Qed.

End ServiceWorkerProperties.

(** ** The cache controller on concrete inputs *)

Section ServiceWorkerChecks.
Import ServiceWorker.

Local Ltac decide_it := apply (bool_decide_unpack _); vm_compute; exact I.

Example includes_download_marker :
  includes "/api-docs/offline/download/pack-3" "/offline/download" = true ∧
  includes "/offline/downloads" "/offline/download" = true ∧
  includes "/offline/packs" "/offline/download" = false.
Proof. repeat split. Qed.

Example isCacheableApi_samples :
  isCacheableApi "/api/v1/curriculum" = true ∧
  isCacheableApi "/api/v1/offline/packs/7" = true ∧
  isCacheableApi "/api/v1/offline/prebuilt" = true ∧
  isCacheableApi "/api/v1/offline/download/7" = false ∧
  isCacheableApi "/api/v2/curriculum" = false.
Proof. repeat split. Qed.

(** A request that is not a GET is left to the browser. *)
Example post_is_not_intercepted :
  onFetch (Sample.online "x")
    {| url := "/api/v1/chat"; pathname := "/api/v1/chat"; method := "POST";
       mode := "cors"; destination := "" |} emptyWorld
  = (None, emptyWorld).
Proof. reflexivity. Qed.

(** Online, then offline: the allowlisted answer is served from the cache,
    the other request gets the offline answer with status 503. *)
Example offline_after_online :
  let w1 := (onFetch (Sample.online "lesson") Sample.curriculum emptyWorld).2 in
  let w2 := (onFetch (Sample.online "hello") Sample.chat w1).2 in
  (onFetch Sample.offline Sample.curriculum w2).1
    = Some (Fulfilled (Sample.answer "lesson")) ∧
  (onFetch Sample.offline Sample.chat w2).1
    = Some (Fulfilled (newResponse offlineJSON 503
                         [("Content-Type", "application/json")])).
Proof. split; vm_compute; reflexivity. Qed.

(** C2 fails as stated: an allowlisted request is answered with status 206,
    which is ok; [cache.put] is called and refuses the response; the caller
    gets the response, the store is opened and stays empty, so the next
    request finds nothing when the network is away. *)
Lemma partial_content_is_put_but_not_stored :
  let partial := {| status := 206; headers := []; body := "lesson" |} in
  let net := λ _ : string, Fulfilled partial in
  let w' := (onFetch net Sample.curriculum emptyWorld).2 in
  ok partial = true ∧
  isCacheableApi (pathname Sample.curriculum) = true ∧
  (onFetch net Sample.curriculum emptyWorld).1 = Some (Fulfilled partial) ∧
  puts w' = [(DYNAMIC_CACHE, "/api/v1/curriculum/grade-9")] ∧
  caches w' = [(DYNAMIC_CACHE, ∅)] ∧
  store_entry DYNAMIC_CACHE "/api/v1/curriculum/grade-9" (caches w') = None ∧
  (onFetch Sample.offline Sample.curriculum w').1
    = Some (Fulfilled (newResponse offlineJSON 503
                         [("Content-Type", "application/json")])).
Proof. repeat split; vm_compute; reflexivity. Qed.

Lemma api_response_cached_iff_allowlisted_and_accepted_witness :
  let net := Sample.online "lesson" in
  let partial := {| status := 206; headers := []; body := "lesson" |} in
  let w1 := (onFetch net Sample.curriculum emptyWorld).2 in
  let w2 := repeated 3 net Sample.chat emptyWorld in
  let w3 := (onFetch (λ _, Fulfilled partial) Sample.curriculum emptyWorld).2 in
  (onFetch net Sample.curriculum emptyWorld).1
    = Some (Fulfilled (Sample.answer "lesson")) ∧
  puts w1 = [(DYNAMIC_CACHE, "/api/v1/curriculum/grade-9")] ∧
  store_entry DYNAMIC_CACHE "/api/v1/curriculum/grade-9" (caches w1)
    = Some (Sample.answer "lesson") ∧
  caches w2 = [] ∧ puts w2 = [] ∧
  fetches w2 = replicate 3 "/api/v1/chat/history" ∧
  caches w3 = [(DYNAMIC_CACHE, ∅)].
Proof.
  intros net partial w1 w2 w3.
  destruct (api_response_cached_iff_allowlisted_and_accepted net
              Sample.curriculum (Sample.answer "lesson") emptyWorld)
    as (Hr & _ & Hp & Hyes & _); [reflexivity..|].
  destruct (api_response_cached_iff_allowlisted_and_accepted net Sample.chat
              (Sample.answer "lesson") emptyWorld)
    as (_ & _ & _ & _ & _ & Hno); [reflexivity..|].
  destruct (api_response_cached_iff_allowlisted_and_accepted
              (λ _, Fulfilled partial) Sample.curriculum partial emptyWorld)
    as (_ & _ & _ & _ & Hrefused & _); [reflexivity..|].
  destruct Hyes as [_ He]; [reflexivity..|].
  destruct Hrefused as [Hc3 _]; [reflexivity..|].
  destruct (Hno eq_refl 3) as (Hc & Hp' & Hf & _).
  repeat split; assumption.
Defined.

Lemma static_asset_hit_is_served_and_refreshed_witness :
  let net := Sample.online "new" in
  let w' := (onFetch net Sample.stylesheet Sample.with_stylesheet).2 in
  (onFetch net Sample.stylesheet Sample.with_stylesheet).1
    = Some (Fulfilled (Sample.answer "old")) ∧
  fetches w' = ["/styles/app.css"] ∧
  store_entry DYNAMIC_CACHE "/styles/app.css" (caches w')
    = Some (Sample.answer "new").
Proof.
  intros net w'.
  destruct (static_asset_hit_is_served_and_refreshed net Sample.stylesheet
              (Sample.answer "old") Sample.with_stylesheet)
    as (Hr & Hf & Hc & _);
    [reflexivity | reflexivity | reflexivity | discriminate
     | vm_compute; reflexivity |].
  split; [exact Hr|]. split; [exact Hf|].
  apply Hc; reflexivity.
Defined.

Lemma navigation_falls_back_to_builtin_page_witness :
  (onFetch Sample.offline Sample.dashboard emptyWorld).1
    = Some (Fulfilled {| status := 200;
                         headers := [("Content-Type", "text/html")];
                         body := getOfflineHTML |}).
Proof.
  apply (navigation_falls_back_to_builtin_page Sample.offline Sample.dashboard
           (TypeError "Failed to fetch") emptyWorld); reflexivity.
Defined.

Lemma activation_purges_stale_stores_witness :
  let w' := (onActivate Sample.with_old_stores).2 in
  ((caches w').*1 = [CACHE_NAME; DYNAMIC_CACHE]) ∧
  ("syncora-v0" ∉ (caches w').*1) ∧
  ((CACHE_NAME, {[ "/" := Sample.answer "shell" ]}) ∈ caches w').
Proof.
  intros w'.
  destruct (activation_purges_stale_stores Sample.with_old_stores)
    as (_ & Hc & Hgone & Hkept).
  split; [vm_compute; reflexivity|]. split.
  - apply Hgone; decide_it.
  - apply Hkept; [decide_it|]. right. left.
Defined.

Lemma install_failure_is_swallowed_witness :
  let r := (onInstall Sample.icon_missing emptyWorld).1 in
  let w := (onInstall Sample.icon_missing emptyWorld).2 in
  r = Fulfilled () ∧
  state_after_install r = installed ∧
  caches w = [(CACHE_NAME, ∅)] ∧
  puts w = [] ∧
  fetches w = CORE_ASSETS ∧
  skipWaitingCalled w = false ∧
  console w = [Log "[SW] Installing Syncora Service Worker...";
               Log "[SW] Caching core assets";
               LogError "[SW] Installation failed:"
                 (TypeError "Request failed")].
Proof.
  intros r w.
  destruct (install_failure_is_swallowed Sample.icon_missing
              "/icons/icon-512x512.png" emptyWorld)
    as (Hr & Hst & Hc & Hp & Hf & Hs & _).
  - decide_it.
  - intros x [= <-]. reflexivity.
  - split; [exact Hr|]. split; [exact Hst|]. split; [exact Hc|].
    split; [exact Hp|]. split; [exact Hf|]. split; [exact Hs|].
    vm_compute. reflexivity.
Defined.

End ServiceWorkerChecks.
